(** * Data-access layer of the two-party messenger (app/models/cassandra_models.py)

    A shallow embedding of [MessageModel] and [ConversationModel] over an
    explicit model of the three tables the queries of the source touch
    ([messages], [conversations], [last_message_cache]).  Every
    [cassandra_client.execute] call of the source becomes a pure function
    on the store; the functions that write return the new store. *)

From Stdlib Require Import ZArith String List Bool Lia Sorted Permutation.
Import ListNotations.
Open Scope Z_scope.

(** ** Python values *)

(** [datetime] values are totally ordered instants; they are kept as a number
    of microseconds, the resolution of [datetime.now()]. *)
Definition datetime := Z.

Inductive exn : Type :=
| TypeError.

(** Outcome of a Python call: a value or a raised exception. *)
Inductive py (A : Type) : Type :=
| Ok (a : A)
| Raise (e : exn).
Arguments Ok {A} a.
Arguments Raise {A} e.

Definition py_bind {A B : Type} (m : py A) (k : A -> py B) : py B :=
  match m with
  | Ok a => k a
  | Raise e => Raise e
  end.

Notation "x <- m ;; k" := (py_bind m (fun x => k))
  (at level 61, m at next level, right associativity).

Module PyList.

(** Index normalisation of a slice bound: a negative bound counts from the
    end, and every bound is clipped to [0, len]. *)
Definition clamp_index (len i : Z) : Z :=
  if i <? 0 then Z.max 0 (len + i) else Z.min i len.

(** [l[start:stop]] *)
Definition slice {A : Type} (l : list A) (start stop : Z) : list A :=
  let len := Z.of_nat (length l) in
  let a := clamp_index len start in
  let b := clamp_index len stop in
  firstn (Z.to_nat (b - a)) (skipn (Z.to_nat a) l).

(** Insertion of [x] in a list sorted by decreasing key, in front of the
    first element whose key is not larger. *)
Fixpoint insert_desc {A : Type} (key : A -> Z) (x : A) (l : list A) : list A :=
  match l with
  | [] => [x]
  | y :: l' => if key y <=? key x then x :: l else y :: insert_desc key x l'
  end.

(** Stable sort by decreasing key: [l.sort(key=key, reverse=True)] on keys
    that compare, and the row order of [ORDER BY ... DESC]. *)
Fixpoint sort_desc {A : Type} (key : A -> Z) (l : list A) : list A :=
  match l with
  | [] => []
  | x :: l' => insert_desc key x (sort_desc key l')
  end.

End PyList.

(** ** Rows of the three tables *)

Record MessageRow : Type := mkMessageRow {
  msg_message_id : Z;
  msg_conversation_id : Z;
  msg_sender_id : Z;
  msg_receiver_id : Z;
  msg_content : string;
  msg_timestamp : datetime
}.

Record ConversationRow : Type := mkConversationRow {
  conv_conversation_id : Z;
  conv_user1_id : Z;
  conv_user2_id : Z;
  conv_last_timestamp : datetime
}.

(** [last_timestamp] and [last_message] are nullable columns. *)
Record CacheRow : Type := mkCacheRow {
  lmc_conversation_id : Z;
  lmc_sender_id : Z;
  lmc_receiver_id : Z;
  lmc_last_timestamp : option datetime;
  lmc_last_message : option string
}.

(** A [timestamp] column holds a whole number of milliseconds: the driver
    writes a [datetime] cut to the millisecond, and a read gives the cut value
    back. *)
Definition cql_timestamp (t : datetime) : datetime := Z.quot t 1000 * 1000.
Arguments cql_timestamp : simpl never.

(** Each table is the list of its rows in the order a scan returns them. *)
Record Store : Type := mkStore {
  messages : list MessageRow;
  conversations : list ConversationRow;
  last_message_cache : list CacheRow
}.

Definition empty_store : Store := mkStore [] [] [].

(** ** Records returned to the callers *)

(** The dictionary returned by [create_message]. *)
Record MessageResponse : Type := mkMessageResponse {
  mr_message_id : Z;
  mr_sender_id : Z;
  mr_receiver_id : Z;
  mr_content : string;
  mr_timestamp : datetime;
  mr_conversation_id : Z
}.

(** An entry of the lists returned by [get_conversation_messages] and
    [get_messages_before_timestamp]. *)
Record MessageItem : Type := mkMessageItem {
  mi_id : Z;
  mi_sender_id : Z;
  mi_receiver_id : Z;
  mi_content : string;
  mi_created_at : datetime;
  mi_conversation_id : Z
}.

(** An entry of the list returned by [get_user_conversations]. *)
Record ConversationItem : Type := mkConversationItem {
  ci_id : Z;
  ci_user1_id : Z;
  ci_user2_id : Z;
  ci_last_message_at : option datetime;
  ci_last_message_content : option string
}.

(** The dictionary returned by [get_conversation] and
    [create_or_get_conversation]. *)
Record ConversationDetail : Type := mkConversationDetail {
  cd_conversation_id : Z;
  cd_sender_id : Z;
  cd_receiver_id : Z;
  cd_last_message_at : option datetime;
  cd_last_message_content : option string
}.

(** ** The storage client *)

Module Table.

(** [place before x l] puts [x] in front of the first row it precedes in
    scan order. *)
Fixpoint place {A : Type} (before : A -> A -> bool) (x : A) (l : list A)
  : list A :=
  match l with
  | [] => [x]
  | y :: l' => if before x y then x :: l else y :: place before x l'
  end.

(** A write of a whole row: the row that has the same primary key, if any,
    is replaced. *)
Definition upsert {A : Type} (same_key before : A -> A -> bool) (x : A)
    (l : list A) : list A :=
  place before x (filter (fun y => negb (same_key x y)) l).

End Table.

Section Client.

(** The partitioner of the store: partitions are scanned by increasing
    token of their partition key. *)
Variable token : Z -> Z.

Definition partition_before (c1 c2 : Z) : bool :=
  (token c1 <? token c2) || ((token c1 =? token c2) && (c1 <? c2)).

(** Modelled from the spec: the table declarations are not part of the
    source; the persisted layout makes [conversation_id] the partition key
    of the three tables and [timestamp], descending, the clustering key of
    [messages]. *)
Definition message_same_key (x y : MessageRow) : bool :=
  (msg_conversation_id x =? msg_conversation_id y)
  && (msg_timestamp x =? msg_timestamp y).

Definition message_before (x y : MessageRow) : bool :=
  partition_before (msg_conversation_id x) (msg_conversation_id y)
  || ((msg_conversation_id x =? msg_conversation_id y)
      && (msg_timestamp y <? msg_timestamp x)).

Definition conversation_same_key (x y : ConversationRow) : bool :=
  conv_conversation_id x =? conv_conversation_id y.

Definition conversation_before (x y : ConversationRow) : bool :=
  partition_before (conv_conversation_id x) (conv_conversation_id y).

Definition cache_same_key (x y : CacheRow) : bool :=
  lmc_conversation_id x =? lmc_conversation_id y.

Definition cache_before (x y : CacheRow) : bool :=
  partition_before (lmc_conversation_id x) (lmc_conversation_id y).

(** [SELECT message_id FROM messages LIMIT 1] *)
Definition select_message_id_limit_1 (st : Store) : list MessageRow :=
  firstn 1 (messages st).

(** [INSERT INTO messages (...) VALUES (...)]: the timestamp, a part of the
    primary key, is kept to the millisecond. *)
Definition insert_message (st : Store) (row : MessageRow) : Store :=
  mkStore (Table.upsert message_same_key message_before
             (mkMessageRow (msg_message_id row) (msg_conversation_id row)
                (msg_sender_id row) (msg_receiver_id row) (msg_content row)
                (cql_timestamp (msg_timestamp row)))
             (messages st))
          (conversations st) (last_message_cache st).

(** [UPDATE last_message_cache SET last_timestamp, last_message, sender_id,
    receiver_id WHERE conversation_id]: every column of the row is written,
    the timestamp to the millisecond, and the row is created when it is
    absent. *)
Definition update_last_message_cache (st : Store) (last_timestamp : datetime)
    (last_message : string) (sender_id receiver_id conversation_id : Z)
  : Store :=
  mkStore (messages st) (conversations st)
          (Table.upsert cache_same_key cache_before
             (mkCacheRow conversation_id sender_id receiver_id
                (Some (cql_timestamp last_timestamp)) (Some last_message))
             (last_message_cache st)).

(** [SELECT COUNT( * ) as count FROM messages WHERE conversation_id = %s] *)
Definition count_messages (st : Store) (conversation_id : Z) : Z :=
  Z.of_nat (length (filter (fun m => msg_conversation_id m =? conversation_id)
                           (messages st))).

(** [SELECT ... FROM messages WHERE conversation_id = %s
    ORDER BY timestamp DESC] *)
Definition select_messages (st : Store) (conversation_id : Z)
  : list MessageRow :=
  PyList.sort_desc msg_timestamp
    (filter (fun m => msg_conversation_id m =? conversation_id) (messages st)).

(** [SELECT COUNT( * ) as count FROM messages
    WHERE conversation_id = %s AND timestamp < %s] *)
Definition count_messages_before (st : Store) (conversation_id : Z)
    (before_timestamp : datetime) : Z :=
  Z.of_nat (length (filter (fun m => (msg_conversation_id m =? conversation_id)
                                     && (msg_timestamp m <? before_timestamp))
                           (messages st))).

(** [SELECT ... FROM messages WHERE conversation_id = %s AND timestamp < %s
    ORDER BY timestamp DESC]; the bound is compared as it is given. *)
Definition select_messages_before (st : Store) (conversation_id : Z)
    (before_timestamp : datetime) : list MessageRow :=
  PyList.sort_desc msg_timestamp
    (filter (fun m => (msg_conversation_id m =? conversation_id)
                      && (msg_timestamp m <? before_timestamp))
            (messages st)).

(** [SELECT conversation_id FROM conversations LIMIT 1] *)
Definition select_conversation_id_limit_1 (st : Store)
  : list ConversationRow :=
  firstn 1 (conversations st).

(** [SELECT ... FROM last_message_cache WHERE sender_id = %s
    ALLOW FILTERING] *)
Definition select_cache_by_sender (st : Store) (user_id : Z) : list CacheRow :=
  filter (fun r => lmc_sender_id r =? user_id) (last_message_cache st).

(** [SELECT ... FROM last_message_cache WHERE receiver_id = %s
    ALLOW FILTERING] *)
Definition select_cache_by_receiver (st : Store) (user_id : Z)
  : list CacheRow :=
  filter (fun r => lmc_receiver_id r =? user_id) (last_message_cache st).

(** [SELECT ... FROM last_message_cache WHERE conversation_id = %s] *)
Definition select_cache (st : Store) (conversation_id : Z) : list CacheRow :=
  filter (fun r => lmc_conversation_id r =? conversation_id)
         (last_message_cache st).

(** [SELECT conversation_id FROM last_message_cache
    WHERE sender_id = %s AND receiver_id = %s ALLOW FILTERING] *)
Definition select_cache_by_pair (st : Store) (sender_id receiver_id : Z)
  : list CacheRow :=
  filter (fun r => (lmc_sender_id r =? sender_id)
                   && (lmc_receiver_id r =? receiver_id))
         (last_message_cache st).

(** [INSERT INTO conversations (...) VALUES (...)] *)
Definition insert_conversation (st : Store) (row : ConversationRow) : Store :=
  mkStore (messages st)
          (Table.upsert conversation_same_key conversation_before
             (mkConversationRow (conv_conversation_id row) (conv_user1_id row)
                (conv_user2_id row) (cql_timestamp (conv_last_timestamp row)))
             (conversations st))
          (last_message_cache st).

(** [INSERT INTO last_message_cache (...) VALUES (...)] *)
Definition insert_cache (st : Store) (row : CacheRow) : Store :=
  mkStore (messages st) (conversations st)
          (Table.upsert cache_same_key cache_before
             (mkCacheRow (lmc_conversation_id row) (lmc_sender_id row)
                (lmc_receiver_id row)
                (option_map cql_timestamp (lmc_last_timestamp row))
                (lmc_last_message row))
             (last_message_cache st)).

(** ** MessageModel *)

(** The UUID the function draws first is written to the log and has no other
    use. *)
Definition get_new_message_id (st : Store) : Z :=
  match select_message_id_limit_1 st with
  | r :: _ => msg_message_id r + 1
  | [] => 1
  end.

(** [now] is the value [datetime.now()] returns during the call. *)
Definition create_message (st : Store) (now : datetime)
    (conversation_id sender_id receiver_id : Z) (content : string)
  : MessageResponse * Store :=
  let message_id := get_new_message_id st in
  let created_at := now in
  let st1 := insert_message st
               (mkMessageRow message_id conversation_id sender_id
                  receiver_id content created_at) in
  let st2 := update_last_message_cache st1 created_at content sender_id
               receiver_id conversation_id in
  (mkMessageResponse message_id sender_id receiver_id content created_at
     conversation_id, st2).

Definition message_item (conversation_id : Z) (row : MessageRow)
  : MessageItem :=
  mkMessageItem (msg_message_id row) (msg_sender_id row)
    (msg_receiver_id row) (msg_content row) (msg_timestamp row)
    conversation_id.

(** The count the first query gives is replaced by [len(messages)] before it
    is returned. *)
Definition get_conversation_messages (st : Store) (conversation_id : Z)
    (page limit : Z) : list MessageItem * Z :=
  let total := count_messages st conversation_id in
  let rows := select_messages st conversation_id in
  let messages := map (message_item conversation_id) rows in
  let total := Z.of_nat (length messages) in
  let offset := (page - 1) * limit in
  let paginated_messages := PyList.slice messages offset (offset + limit) in
  let messages :=
    match paginated_messages with [] => [] | _ => paginated_messages end in
  (messages, total).

Definition get_messages_before_timestamp (st : Store) (conversation_id : Z)
    (before_timestamp : datetime) (page limit : Z) : list MessageItem * Z :=
  let total := count_messages_before st conversation_id before_timestamp in
  let rows := select_messages_before st conversation_id before_timestamp in
  let messages := map (message_item conversation_id) rows in
  let total := Z.of_nat (length messages) in
  let offset := (page - 1) * limit in
  let paginated_messages := PyList.slice messages offset (offset + limit) in
  let messages :=
    match paginated_messages with [] => [] | _ => paginated_messages end in
  (messages, total).

(** ** ConversationModel *)

Definition get_new_conversation_id (st : Store) : Z :=
  match select_conversation_id_limit_1 st with
  | r :: _ => conv_conversation_id r + 1
  | [] => 1
  end.

(** The sort key of a cache row; the key of a null timestamp is never
    compared. *)
Definition timestamp_key (row : CacheRow) : Z :=
  match lmc_last_timestamp row with
  | Some t => t
  | None => 0
  end.

(** [rows_list.sort(key=lambda x: x["last_timestamp"], reverse=True)]: a
    list of two rows or more has each of its keys compared, and the
    comparison of [None] raises [TypeError]. *)
Definition sort_by_last_timestamp (rows_list : list CacheRow)
  : py (list CacheRow) :=
  if (2 <=? length rows_list)%nat
     && existsb (fun r => match lmc_last_timestamp r with
                          | None => true
                          | Some _ => false
                          end) rows_list
  then Raise TypeError
  else Ok (PyList.sort_desc timestamp_key rows_list).

Definition conversation_item (row : CacheRow) : ConversationItem :=
  mkConversationItem (lmc_conversation_id row) (lmc_sender_id row)
    (lmc_receiver_id row) (lmc_last_timestamp row) (lmc_last_message row).

Definition get_user_conversations (st : Store) (user_id : Z) (page limit : Z)
  : py (list ConversationItem * Z) :=
  let rows1 := select_cache_by_receiver st user_id in
  let rows2 := select_cache_by_sender st user_id in
  let rows_list := rows1 ++ rows2 in
  rows_list <- sort_by_last_timestamp rows_list ;;
  let total := Z.of_nat (length rows_list) in
  let offset := (page - 1) * limit in
  let paginated_rows := PyList.slice rows_list offset (offset + limit) in
  let conversations := map conversation_item paginated_rows in
  Ok (conversations, total).

Definition conversation_detail (row : CacheRow) : ConversationDetail :=
  mkConversationDetail (lmc_conversation_id row) (lmc_sender_id row)
    (lmc_receiver_id row) (lmc_last_timestamp row) (lmc_last_message row).

Definition get_conversation (st : Store) (conversation_id : Z)
  : option ConversationDetail :=
  match select_cache st conversation_id with
  | [] => None
  | row :: _ => Some (conversation_detail row)
  end.

Definition create_or_get_conversation (st : Store) (now : datetime)
    (user1_id user2_id : Z) : option ConversationDetail * Store :=
  match select_cache_by_pair st user1_id user2_id with
  | r1 :: _ => (get_conversation st (lmc_conversation_id r1), st)
  | [] =>
    match select_cache_by_pair st user2_id user1_id with
    | r2 :: _ => (get_conversation st (lmc_conversation_id r2), st)
    | [] =>
      let conversation_id := get_new_conversation_id st in
      let created_at := now in
      let st1 := insert_conversation st
                   (mkConversationRow conversation_id user1_id user2_id
                      created_at) in
      let st2 := insert_cache st1
                   (mkCacheRow conversation_id user1_id user2_id
                      (Some created_at) None) in
      (Some (mkConversationDetail conversation_id user1_id user2_id
               (Some created_at) None), st2)
    end
  end.

End Client.

(** * Notions used by the properties *)

(** A list sorted by decreasing key. *)
Definition newest_first {A : Type} (key : A -> Z) : list A -> Prop :=
  Sorted (fun x y => key y <= key x).

(** The whole list a conversation's read builds before it cuts a page out:
    the local [messages] of [get_conversation_messages]. *)
Definition all_messages (st : Store) (conversation_id : Z) : list MessageItem :=
  map (message_item conversation_id) (select_messages st conversation_id).

(** The same list for [get_messages_before_timestamp]. *)
Definition all_messages_before (st : Store) (conversation_id : Z)
    (before_timestamp : datetime) : list MessageItem :=
  map (message_item conversation_id)
      (select_messages_before st conversation_id before_timestamp).

(** A reader that asks for the pages [page], [page + 1], ... of a conversation
    and stops at the first empty one; [None] when [fuel] requests were not
    enough to reach an empty page. *)
Fixpoint read_pages (fuel : nat) (st : Store) (cid limit page : Z)
  : option (list MessageItem) :=
  match fuel with
  | O => None
  | S fuel' =>
    match fst (get_conversation_messages st cid page limit) with
    | [] => Some []
    | msgs => option_map (app msgs) (read_pages fuel' st cid limit (page + 1))
    end
  end.

(** What [create_message] hands back, as the entry of a message list under
    which it is read: the timestamp is the one the store keeps. *)
Definition item_of_response (m : MessageResponse) : MessageItem :=
  mkMessageItem (mr_message_id m) (mr_sender_id m) (mr_receiver_id m)
    (mr_content m) (cql_timestamp (mr_timestamp m)) (mr_conversation_id m).

(** One second of [datetime], whose resolution is the microsecond. *)
Definition second : Z := 1000000.

(** [between a b row]: the cache row names [a] and [b] as its two users, in
    one order or the other. *)
Definition between (a b : Z) (row : CacheRow) : bool :=
  ((lmc_sender_id row =? a) && (lmc_receiver_id row =? b))
  || ((lmc_sender_id row =? b) && (lmc_receiver_id row =? a)).

(** The directory has at most one conversation for the pair of [a] and [b]. *)
Definition pair_has_one_conversation (st : Store) (a b : Z) : Prop :=
  forall r1 r2,
    In r1 (last_message_cache st) -> In r2 (last_message_cache st) ->
    between a b r1 = true -> between a b r2 = true ->
    lmc_conversation_id r1 = lmc_conversation_id r2.

(** The invariant of the data model: at most one conversation for each
    unordered pair of users. *)
Definition one_conversation_per_pair (st : Store) : Prop :=
  forall a b, pair_has_one_conversation st a b.

(** ** Histories of calls *)

Inductive Call : Type :=
| CreateOrGet (now : datetime) (user1_id user2_id : Z)
| CreateMessage (now : datetime) (conversation_id sender_id receiver_id : Z)
    (content : string).

(** The append a call makes to conversation [cid], if it makes one. *)
Definition append_to (cid : Z) (call : Call)
  : option (datetime * Z * Z * string) :=
  match call with
  | CreateMessage now c s r content =>
    if c =? cid then Some (now, s, r, content) else None
  | CreateOrGet _ _ _ => None
  end.

(** The most recent append to conversation [cid] in a history. *)
Definition last_append (cid : Z) (calls : list Call)
  : option (datetime * Z * Z * string) :=
  fold_left (fun acc call =>
               match append_to cid call with
               | Some a => Some a
               | None => acc
               end) calls None.

Section Histories.

Variable token : Z -> Z.

(** The appends of a list of (sender, receiver, content) to one
    conversation, the first at [now] and each of the others one second
    after the one before it. *)
Fixpoint append_all (st : Store) (now : datetime) (cid : Z)
    (msgs : list (Z * Z * string)) : list MessageResponse * Store :=
  match msgs with
  | [] => ([], st)
  | (s, r, c) :: rest =>
    let (m, st1) := create_message token st now cid s r c in
    let (ms, st2) := append_all st1 (now + second) cid rest in
    (m :: ms, st2)
  end.

Definition step (st : Store) (call : Call) : Store :=
  match call with
  | CreateOrGet now a b => snd (create_or_get_conversation token st now a b)
  | CreateMessage now cid s r c =>
    snd (create_message token st now cid s r c)
  end.

Definition run (st : Store) (calls : list Call) : Store :=
  fold_left step calls st.

End Histories.

(** After a history of calls on the empty store a cache row is in one of two
    states.  Either it is the row a [create_or_get_conversation] call of the
    history wrote, when the pair had no conversation and this id was the next
    one, and no message was appended to the id after that call; or it holds
    the most recent append to its id. *)
Definition cache_row_current (token : Z -> Z) (calls : list Call)
    (row : CacheRow) : Prop :=
  (exists before now a b after,
      calls = before ++ CreateOrGet now a b :: after
      /\ (forall r, In r (last_message_cache (run token empty_store before)) ->
                    between a b r = false)
      /\ get_new_conversation_id (run token empty_store before)
         = lmc_conversation_id row
      /\ row = mkCacheRow (lmc_conversation_id row) a b
                 (Some (cql_timestamp now)) None
      /\ last_append (lmc_conversation_id row) after = None)
  \/ exists now s r c,
       last_append (lmc_conversation_id row) calls = Some (now, s, r, c)
       /\ row = mkCacheRow (lmc_conversation_id row) s r
                  (Some (cql_timestamp now)) (Some c).

(** The claim that the conversations which have no message yet come after all
    the others in a listing. *)
Definition without_messages_last (st : Store) (items : list ConversationItem)
  : Prop :=
  forall (i j : nat) (a b : ConversationItem),
    (i < j)%nat -> nth_error items i = Some a -> nth_error items j = Some b ->
    count_messages st (ci_id a) = 0 -> count_messages st (ci_id b) = 0.

(** A history in which every [create_message] goes to the conversation of
    its sender and receiver: at the time of the call no other conversation of
    the cache is between the two. *)
Fixpoint well_addressed (token : Z -> Z) (st : Store) (calls : list Call)
  : Prop :=
  match calls with
  | [] => True
  | call :: rest =>
    match call with
    | CreateMessage _ cid s r _ =>
      forall row, In row (last_message_cache st) -> between s r row = true ->
                  lmc_conversation_id row = cid
    | CreateOrGet _ _ _ => True
    end
    /\ well_addressed token (step token st call) rest
  end.

(** Every row of the cache has a last timestamp. *)
Definition timestamps_set (st : Store) : Prop :=
  forall row, In row (last_message_cache st) ->
              lmc_last_timestamp row <> None.

(** The primary keys of the three tables are keys: no two rows of a table
    share one. *)
Definition keys_unique (st : Store) : Prop :=
  NoDup (map (fun m => (msg_conversation_id m, msg_timestamp m)) (messages st))
  /\ NoDup (map conv_conversation_id (conversations st))
  /\ NoDup (map lmc_conversation_id (last_message_cache st)).

(** ** Runs on a store that scans its partitions by increasing key *)

Module Example.

Open Scope string_scope.

(** An order-preserving partitioner. *)
Definition by_key (c : Z) : Z := c.

(** Two first contacts. *)
Definition two_conversations : Store :=
  run by_key empty_store [CreateOrGet 10000 1 2; CreateOrGet 20000 3 4].

(** A message in each of the two conversations. *)
Definition two_messages : Store :=
  run by_key two_conversations
    [CreateMessage 30000 1 1 2 "a"; CreateMessage 40000 2 3 4 "b"].

(** User 1 writes to user 2, and then opens a conversation with user 3. *)
Definition second_contact : Store :=
  run by_key empty_store
    [CreateOrGet 10000 1 2; CreateMessage 20000 1 1 2 "hi";
     CreateOrGet 30000 1 3].

(** Three messages of one conversation. *)
Definition three_messages : Store :=
  run by_key empty_store
    [CreateOrGet 10000 1 2; CreateMessage 20000 1 1 2 "a";
     CreateMessage 30000 1 2 1 "b"; CreateMessage 40000 1 1 2 "c"].

End Example.

(** * Properties *)

(** ** Slices and sorting *)

Section ListFacts.

Context {A : Type}.

Lemma firstn_cap (n : nat) (l : list A) :
  firstn n l = firstn (Nat.min n (length l)) l.
Proof.
  destruct (Nat.le_ge_cases n (length l)) as [H | H].
  - now rewrite Nat.min_l.
  - rewrite Nat.min_r by assumption.
    now rewrite !firstn_all2 by lia.
Qed.

(** A slice with bounds that are not negative is a window of the list. *)
Lemma slice_window (l : list A) (off n : Z) :
  0 <= off -> 0 <= n ->
  PyList.slice l off (off + n)
  = firstn (Z.to_nat n) (skipn (Z.to_nat off) l).
Proof.
  intros Hoff Hn. unfold PyList.slice, PyList.clamp_index.
  destruct (off <? 0) eqn:E1; [apply Z.ltb_lt in E1; lia |].
  destruct (off + n <? 0) eqn:E2; [apply Z.ltb_lt in E2; lia |].
  destruct (Z_lt_ge_dec off (Z.of_nat (length l))) as [Hlt | Hge].
  - rewrite (Z.min_l off) by lia.
    rewrite (firstn_cap (Z.to_nat n)), length_skipn.
    f_equal. lia.
  - rewrite (skipn_all2 (n := Z.to_nat off)) by lia.
    rewrite (skipn_all2 (n := Z.to_nat (Z.min off _))) by lia.
    now rewrite !firstn_nil.
Qed.

(** A slice that starts at or after the end of the list is empty, whatever
    its second bound. *)
Lemma slice_past_end (l : list A) (start stop : Z) :
  Z.of_nat (length l) <= start -> PyList.slice l start stop = [].
Proof.
  intros H. unfold PyList.slice, PyList.clamp_index.
  destruct (start <? 0) eqn:E1; [apply Z.ltb_lt in E1; lia |].
  rewrite (Z.min_r start) by lia.
  replace (Z.to_nat (_ - _)) with 0%nat; [reflexivity |].
  destruct (stop <? 0) eqn:E2; [apply Z.ltb_lt in E2 |]; lia.
Qed.

Lemma slice_nil (start stop : Z) : PyList.slice (@nil A) start stop = [].
Proof.
  unfold PyList.slice. now rewrite skipn_nil, firstn_nil.
Qed.

Lemma filter_nil_length (p : A -> bool) (l : list A) :
  length (filter p l) = 0%nat -> filter p l = [].
Proof. now destruct (filter p l). Qed.

Lemma filter_implied (p q : A -> bool) (l : list A) :
  (forall x, In x l -> p x = true -> q x = true) ->
  filter p (filter q l) = filter p l.
Proof.
  induction l as [| y l IH]; intros H; [reflexivity |]. simpl.
  destruct (p y) eqn:Ep.
  - rewrite (H y (or_introl eq_refl) Ep). simpl. rewrite Ep.
    f_equal. apply IH. intros x Hx. apply H. now right.
  - destruct (q y); simpl; [rewrite Ep |];
      apply IH; intros x Hx; apply H; now right.
Qed.

Lemma filter_none (p : A -> bool) (l : list A) :
  (forall x, In x l -> p x = false) -> filter p l = [].
Proof.
  induction l as [| y l IH]; intros H; [reflexivity |]. simpl.
  rewrite (H y (or_introl eq_refl)). apply IH. intros x Hx. apply H. now right.
Qed.

Lemma In_place (before : A -> A -> bool) (x y : A) (l : list A) :
  In y (Table.place before x l) <-> y = x \/ In y l.
Proof.
  induction l as [| z l IH]; simpl.
  - intuition.
  - destruct (before x z); simpl; [| rewrite IH]; intuition.
Qed.

Lemma In_upsert (same_key before : A -> A -> bool) (x y : A) (l : list A) :
  In y (Table.upsert same_key before x l)
  <-> y = x \/ (In y l /\ same_key x y = false).
Proof.
  unfold Table.upsert. rewrite In_place, filter_In, negb_true_iff. tauto.
Qed.

Lemma filter_place (p : A -> bool) (before : A -> A -> bool) (x : A)
    (l : list A) :
  p x = false -> filter p (Table.place before x l) = filter p l.
Proof.
  intros Hx. induction l as [| y l IH]; simpl.
  - now rewrite Hx.
  - destruct (before x y); simpl.
    + now rewrite Hx.
    + now rewrite IH.
Qed.

Lemma filter_place_only (p : A -> bool) (before : A -> A -> bool) (x : A)
    (l : list A) :
  p x = true -> filter p l = [] -> filter p (Table.place before x l) = [x].
Proof.
  intros Hx. induction l as [| y l IH]; simpl.
  - now rewrite Hx.
  - destruct (p y) eqn:Ey; [discriminate |]. intros Hl.
    destruct (before x y); simpl.
    + now rewrite Hx, Ey, Hl.
    + now rewrite Ey, IH.
Qed.

Variable key : A -> Z.


Lemma In_insert_desc (x y : A) (l : list A) :
  In y (PyList.insert_desc key x l) <-> y = x \/ In y l.
Proof.
  induction l as [| z l IH]; simpl.
  - intuition.
  - destruct (key z <=? key x); simpl; [| rewrite IH]; intuition.
Qed.

Lemma insert_desc_perm (x : A) (l : list A) :
  Permutation (x :: l) (PyList.insert_desc key x l).
Proof.
  induction l as [| z l IH]; simpl; [reflexivity |].
  destruct (key z <=? key x); [reflexivity |].
  etransitivity; [apply perm_swap |]. now constructor.
Qed.

Lemma sort_desc_perm (l : list A) : Permutation l (PyList.sort_desc key l).
Proof.
  induction l as [| x l IH]; simpl; [constructor |].
  etransitivity; [| apply insert_desc_perm]. now constructor.
Qed.

Lemma sort_desc_length (l : list A) :
  length (PyList.sort_desc key l) = length l.
Proof. symmetry. apply Permutation_length, sort_desc_perm. Qed.

Lemma insert_desc_sorted (x : A) (l : list A) :
  newest_first key l -> newest_first key (PyList.insert_desc key x l).
Proof.
  unfold newest_first.
  induction l as [| z l IH]; intros Hl; simpl.
  - repeat constructor.
  - destruct (key z <=? key x) eqn:E.
    + constructor; [assumption |]. constructor. now apply Z.leb_le.
    + apply Z.leb_gt in E. inversion Hl as [| ? ? Hs Hh]; subst.
      constructor; [now apply IH |].
      destruct l as [| w l]; simpl.
      * constructor. lia.
      * destruct (key w <=? key x); constructor; [lia |].
        now inversion Hh.
Qed.

Lemma sort_desc_sorted (l : list A) : newest_first key (PyList.sort_desc key l).
Proof.
  induction l as [| x l IH]; simpl; [constructor |].
  now apply insert_desc_sorted.
Qed.

(** Inserting a row that is at least as new as every row of the list puts
    it in front. *)
Lemma insert_desc_front (x : A) (l : list A) :
  (forall y, In y l -> key y <= key x) ->
  PyList.insert_desc key x l = x :: l.
Proof.
  destruct l as [| z l]; intros H; simpl; [reflexivity |].
  specialize (H z (or_introl eq_refl)).
  destruct (key z <=? key x) eqn:E; [reflexivity |].
  apply Z.leb_gt in E. lia.
Qed.

Lemma filter_insert_desc (p : A -> bool) (x : A) (l : list A) :
  newest_first key l ->
  filter p (PyList.insert_desc key x l)
  = if p x then PyList.insert_desc key x (filter p l) else filter p l.
Proof.
  intros Hl. apply Sorted_StronglySorted in Hl; [| intros a b c; lia].
  induction Hl as [| z l Hs IH Hall]; simpl.
  - now destruct (p x).
  - rewrite Forall_forall in Hall.
    destruct (key z <=? key x) eqn:E; simpl.
    + destruct (p x) eqn:Ex; [| reflexivity].
      apply Z.leb_le in E. symmetry.
      change (PyList.insert_desc key x (filter p (z :: l))
              = x :: filter p (z :: l)).
      apply insert_desc_front. intros y Hy.
      apply filter_In in Hy. destruct Hy as [[-> | Hy] _]; [lia |].
      specialize (Hall y Hy). lia.
    + rewrite IH. destruct (p z) eqn:Ez, (p x) eqn:Ex; simpl;
        rewrite ?E; reflexivity.
Qed.

(** Filtering the rows before or after sorting them gives the same list. *)
Lemma filter_sort_desc (p : A -> bool) (l : list A) :
  filter p (PyList.sort_desc key l) = PyList.sort_desc key (filter p l).
Proof.
  induction l as [| x l IH]; simpl; [reflexivity |].
  rewrite filter_insert_desc by apply sort_desc_sorted.
  rewrite IH. now destruct (p x).
Qed.

End ListFacts.

Lemma map_insert_desc {A B : Type} (f : A -> B) (kA : A -> Z) (kB : B -> Z)
    (x : A) (l : list A) :
  (forall a, kB (f a) = kA a) ->
  map f (PyList.insert_desc kA x l) = PyList.insert_desc kB (f x) (map f l).
Proof.
  intros Hk. induction l as [| z l IH]; simpl; [reflexivity |].
  rewrite !Hk. destruct (kA z <=? kA x); simpl; [reflexivity |].
  now rewrite IH.
Qed.

Lemma map_sort_desc {A B : Type} (f : A -> B) (kA : A -> Z) (kB : B -> Z)
    (l : list A) :
  (forall a, kB (f a) = kA a) ->
  map f (PyList.sort_desc kA l) = PyList.sort_desc kB (map f l).
Proof.
  intros Hk. induction l as [| x l IH]; simpl; [reflexivity |].
  now rewrite (map_insert_desc f kA kB), IH.
Qed.

Lemma In_sort_desc {A : Type} (key : A -> Z) (x : A) (l : list A) :
  In x (PyList.sort_desc key l) <-> In x l.
Proof.
  split; apply Permutation_in;
    [symmetry |]; apply sort_desc_perm.
Qed.

(** Placing a row that is newer than the rows selected by [p] and sorting the
    selection puts that row in front of the former selection. *)
Lemma sort_filter_place {A : Type} (key : A -> Z) (p : A -> bool)
    (before : A -> A -> bool) (x : A) (l : list A) :
  p x = true ->
  (forall y, In y l -> p y = true -> key y < key x) ->
  PyList.sort_desc key (filter p (Table.place before x l))
  = x :: PyList.sort_desc key (filter p l).
Proof.
  intros Hx. induction l as [| y l IH]; intros Hl; simpl.
  - now rewrite Hx.
  - assert (Hfront : PyList.insert_desc key x
                       (PyList.sort_desc key (filter p (y :: l)))
                     = x :: PyList.sort_desc key (filter p (y :: l))).
    { apply insert_desc_front. intros z Hz.
      apply In_sort_desc, filter_In in Hz. destruct Hz as [Hz Hpz].
      specialize (Hl z Hz Hpz). lia. }
    destruct (before x y); simpl.
    + rewrite Hx. simpl. exact Hfront.
    + assert (IH' := IH (fun z Hz => Hl z (or_intror Hz))).
      destruct (p y) eqn:Ey; simpl; [| exact IH'].
      rewrite IH'. simpl.
      specialize (Hl y (or_introl eq_refl) Ey).
      destruct (key x <=? key y) eqn:E; [apply Z.leb_le in E; lia |].
      reflexivity.
Qed.

(** ** The message log *)


Lemma or_empty {A : Type} (l : list A) :
  match l with [] => [] | _ => l end = l.
Proof. now destruct l. Qed.

Lemma get_conversation_messages_eq (st : Store) (cid page limit : Z) :
  get_conversation_messages st cid page limit
  = (PyList.slice (all_messages st cid) ((page - 1) * limit)
       ((page - 1) * limit + limit),
     Z.of_nat (length (all_messages st cid))).
Proof.
  unfold get_conversation_messages, all_messages. cbv zeta.
  now rewrite or_empty.
Qed.

Lemma get_messages_before_timestamp_eq (st : Store) (cid : Z) (T : datetime)
    (page limit : Z) :
  get_messages_before_timestamp st cid T page limit
  = (PyList.slice (all_messages_before st cid T) ((page - 1) * limit)
       ((page - 1) * limit + limit),
     Z.of_nat (length (all_messages_before st cid T))).
Proof.
  unfold get_messages_before_timestamp, all_messages_before. cbv zeta.
  now rewrite or_empty.
Qed.

Lemma all_messages_length (st : Store) (cid : Z) :
  Z.of_nat (length (all_messages st cid)) = count_messages st cid.
Proof.
  unfold all_messages, select_messages, count_messages.
  now rewrite length_map, sort_desc_length.
Qed.

Lemma all_messages_before_length (st : Store) (cid : Z) (T : datetime) :
  Z.of_nat (length (all_messages_before st cid T))
  = count_messages_before st cid T.
Proof.
  unfold all_messages_before, select_messages_before, count_messages_before.
  now rewrite length_map, sort_desc_length.
Qed.

Lemma all_messages_sorted (st : Store) (cid : Z) :
  newest_first mi_created_at (all_messages st cid).
Proof.
  unfold all_messages, select_messages.
  rewrite (map_sort_desc _ msg_timestamp mi_created_at) by reflexivity.
  apply sort_desc_sorted.
Qed.

Lemma all_messages_perm (st : Store) (cid : Z) :
  Permutation
    (map (message_item cid)
         (filter (fun m => msg_conversation_id m =? cid) (messages st)))
    (all_messages st cid).
Proof.
  unfold all_messages, select_messages.
  apply Permutation_map, sort_desc_perm.
Qed.

Lemma filter_andb {A : Type} (p q : A -> bool) (l : list A) :
  filter (fun x => p x && q x) l = filter q (filter p l).
Proof.
  induction l as [| x l IH]; simpl; [reflexivity |].
  destruct (p x); simpl; [destruct (q x) |]; now rewrite IH.
Qed.

(** The rows of the timestamp query are the rows of the conversation query
    that are older than the bound, in the same order. *)
Lemma all_messages_before_filter (st : Store) (cid : Z) (T : datetime) :
  all_messages_before st cid T
  = filter (fun m => mi_created_at m <? T) (all_messages st cid).
Proof.
  unfold all_messages_before, all_messages, select_messages_before,
    select_messages.
  rewrite filter_andb, <- filter_sort_desc.
  now rewrite (filter_map_swap (fun m => mi_created_at m <? T)
                 (message_item cid)).
Qed.

Lemma In_all_messages (st : Store) (cid : Z) (item : MessageItem) :
  In item (all_messages st cid) <->
  exists row, In row (messages st) /\ msg_conversation_id row = cid
              /\ item = message_item cid row.
Proof.
  unfold all_messages, select_messages. rewrite in_map_iff. split.
  - intros [row [Hitem Hrow]]. apply In_sort_desc, filter_In in Hrow.
    destruct Hrow as [Hrow Hc]. apply Z.eqb_eq in Hc. now exists row.
  - intros [row (Hrow & Hc & Hitem)]. exists row. split; [easy |].
    apply In_sort_desc, filter_In. split; [assumption | now apply Z.eqb_eq].
Qed.


(** C9. Reads of absent data return an explicit empty result: for a
    conversation id that has no row in the cache [get_conversation] returns
    [None], and for a conversation that has no message both message reads
    return the empty list with a total of 0; a user without a conversation
    gets the empty list from [get_user_conversations] too. *)
Theorem reads_of_absent_data (st : Store) (cid : Z) :
  ((forall row, In row (last_message_cache st) ->
                lmc_conversation_id row <> cid) ->
   get_conversation st cid = None)
  /\ ((forall m, In m (messages st) -> msg_conversation_id m <> cid) ->
      forall (T : datetime) (page limit : Z),
        get_conversation_messages st cid page limit = ([], 0)
        /\ get_messages_before_timestamp st cid T page limit = ([], 0))
  /\ ((forall row, In row (last_message_cache st) ->
                   lmc_sender_id row <> cid /\ lmc_receiver_id row <> cid) ->
      forall page limit : Z,
        get_user_conversations st cid page limit = Ok ([], 0)).
Proof.
  split; [| split].
  - intros H. unfold get_conversation, select_cache.
    rewrite filter_none; [reflexivity |].
    intros row Hrow. apply Z.eqb_neq. now apply H.
  - intros H T page limit.
    assert (Hall : all_messages st cid = []).
    { unfold all_messages, select_messages. rewrite filter_none; [reflexivity |].
      intros m Hm. apply Z.eqb_neq. now apply H. }
    rewrite get_conversation_messages_eq, get_messages_before_timestamp_eq.
    rewrite all_messages_before_filter, Hall. simpl filter.
    now rewrite !slice_nil.
  - intros H page limit. unfold get_user_conversations,
      select_cache_by_receiver, select_cache_by_sender.
    rewrite !filter_none; [| intros row Hrow; apply Z.eqb_neq; now apply H ..].
    simpl. now rewrite slice_nil.
Qed.

Lemma reads_of_absent_data_witness :
  get_conversation empty_store 1 = None
  /\ get_conversation_messages empty_store 1 1 20 = ([], 0)
  /\ get_messages_before_timestamp empty_store 1 5 1 20 = ([], 0)
  /\ get_user_conversations empty_store 1 1 20 = Ok ([], 0).
Proof.
  destruct (reads_of_absent_data empty_store 1) as (H1 & H2 & H3).
  assert (Hm : forall m, In m (messages empty_store) ->
                          msg_conversation_id m <> 1) by (intros m []).
  destruct (H2 Hm 5 1 20) as [Ha Hb].
  split; [apply H1; intros row [] |].
  split; [exact Ha |].
  split; [exact Hb |].
  apply H3; intros row [].
Defined.

(** C10. A page that starts at or after the end of the qualifying messages is
    empty, and the total is still the number of all qualifying messages: the
    messages of the conversation for [get_conversation_messages], those older
    than the bound for [get_messages_before_timestamp]. *)
Theorem out_of_range_page_is_empty (st : Store) (cid : Z) (T : datetime)
    (page limit : Z) :
  (count_messages st cid <= (page - 1) * limit ->
   get_conversation_messages st cid page limit = ([], count_messages st cid))
  /\ (count_messages_before st cid T <= (page - 1) * limit ->
      get_messages_before_timestamp st cid T page limit
      = ([], count_messages_before st cid T)).
Proof.
  split; intros H.
  - rewrite get_conversation_messages_eq, all_messages_length.
    rewrite slice_past_end; [reflexivity |].
    now rewrite all_messages_length.
  - rewrite get_messages_before_timestamp_eq, all_messages_before_length.
    rewrite slice_past_end; [reflexivity |].
    now rewrite all_messages_before_length.
Qed.

(** ** Reading a conversation page after page *)


Lemma read_pages_from (st : Store) (cid limit : Z) :
  1 <= limit ->
  forall (fuel k : nat),
    (length (skipn (k * Z.to_nat limit) (all_messages st cid)) < fuel)%nat ->
    read_pages fuel st cid limit (Z.of_nat k + 1)
    = Some (skipn (k * Z.to_nat limit) (all_messages st cid)).
Proof.
  intros Hlimit. set (full := all_messages st cid).
  induction fuel as [| fuel IH]; intros k Hlen; [lia |].
  cbn [read_pages]. rewrite get_conversation_messages_eq. cbn [fst].
  fold full.
  replace (Z.of_nat k + 1 - 1) with (Z.of_nat k) by lia.
  rewrite slice_window by lia.
  replace (Z.to_nat (Z.of_nat k * limit)) with (k * Z.to_nat limit)%nat by nia.
  remember (skipn (k * Z.to_nat limit) full) as rest eqn:Hrest.
  destruct (firstn (Z.to_nat limit) rest) as [| m pg] eqn:Hpg.
  - destruct rest as [| r rest']; [reflexivity |].
    destruct (Z.to_nat limit) eqn:El; [lia | discriminate].
  - replace (Z.of_nat k + 1 + 1) with (Z.of_nat (S k) + 1) by lia.
    assert (Hnext : skipn (S k * Z.to_nat limit) full
                    = skipn (Z.to_nat limit) rest).
    { rewrite Hrest, skipn_skipn. f_equal. }
    rewrite IH.
    + cbn [option_map]. rewrite Hnext, <- Hpg. now rewrite firstn_skipn.
    + rewrite Hnext, length_skipn.
      destruct rest as [| r rest']; [rewrite firstn_nil in Hpg; discriminate |].
      simpl length in *. lia.
Qed.

(** C6. For every limit of at least 1, reading the pages 1, 2, 3, ... of a
    conversation up to the first empty page ends (within one request more
    than there are messages) and the pages read, put one after the other,
    are the conversation's whole newest-first list: no message twice and none
    left out. *)
Theorem pages_concatenate_to_all_messages (st : Store) (cid limit : Z)
    (fuel : nat) :
  1 <= limit ->
  (length (all_messages st cid) < fuel)%nat ->
  read_pages fuel st cid limit 1 = Some (all_messages st cid).
Proof.
  intros Hlimit Hfuel.
  exact (read_pages_from st cid limit Hlimit fuel 0 Hfuel).
Qed.

(** ** Writes *)

Lemma cql_timestamp_close (t : datetime) :
  t - 999 <= cql_timestamp t <= t + 999.
Proof.
  unfold cql_timestamp.
  pose proof (Z.quot_rem' t 1000). pose proof (Z.rem_bound_abs t 1000).
  lia.
Qed.

(** One second later is later in the store too. *)
Lemma cql_timestamp_second (t : datetime) :
  cql_timestamp t < cql_timestamp (t + second).
Proof.
  pose proof (cql_timestamp_close t).
  pose proof (cql_timestamp_close (t + second)).
  unfold second in *. lia.
Qed.

Lemma cql_timestamp_idem (t : datetime) :
  cql_timestamp (cql_timestamp t) = cql_timestamp t.
Proof.
  unfold cql_timestamp. now rewrite Z.quot_mul by lia.
Qed.

Lemma cql_timestamp_whole (t : datetime) :
  Z.rem t 1000 = 0 -> cql_timestamp t = t.
Proof.
  unfold cql_timestamp. intros H. pose proof (Z.quot_rem' t 1000). lia.
Qed.

Lemma filter_upsert_key {A : Type} (k : A -> Z) (same_key before : A -> A -> bool)
    (x : A) (l : list A) :
  (forall a b, same_key a b = (k a =? k b)) ->
  filter (fun y => k y =? k x) (Table.upsert same_key before x l) = [x].
Proof.
  intros Hkey. unfold Table.upsert.
  apply filter_place_only; [apply Z.eqb_refl |].
  apply filter_none. intros y Hy. apply filter_In in Hy.
  destruct Hy as [_ Hy]. rewrite Hkey in Hy.
  apply negb_true_iff in Hy. now rewrite Z.eqb_sym.
Qed.


Section Writes.

Variable token : Z -> Z.


Lemma create_message_response (st : Store) (now : datetime) (cid s r : Z)
    (c : string) :
  fst (create_message token st now cid s r c)
  = mkMessageResponse (get_new_message_id st) s r c now cid.
Proof. reflexivity. Qed.

Lemma create_message_cache (st : Store) (now : datetime) (cid s r : Z)
    (c : string) :
  last_message_cache (snd (create_message token st now cid s r c))
  = Table.upsert cache_same_key (cache_before token)
      (mkCacheRow cid s r (Some (cql_timestamp now)) (Some c))
      (last_message_cache st).
Proof. reflexivity. Qed.

Lemma create_message_messages (st : Store) (now : datetime) (cid s r : Z)
    (c : string) :
  messages (snd (create_message token st now cid s r c))
  = Table.upsert message_same_key (message_before token)
      (mkMessageRow (get_new_message_id st) cid s r c (cql_timestamp now))
      (messages st).
Proof. reflexivity. Qed.

(** An append that is newer than the messages of its conversation comes
    first in the next read of that conversation. *)
Lemma select_messages_create_message (st : Store) (now : datetime)
    (cid s r : Z) (c : string) :
  (forall m, In m (messages st) -> msg_conversation_id m = cid ->
             msg_timestamp m < cql_timestamp now) ->
  select_messages (snd (create_message token st now cid s r c)) cid
  = mkMessageRow (get_new_message_id st) cid s r c (cql_timestamp now)
    :: select_messages st cid.
Proof.
  intros Hnew. unfold select_messages.
  rewrite create_message_messages. unfold Table.upsert.
  rewrite sort_filter_place.
  - f_equal. f_equal. apply filter_implied.
    intros m Hm Hc. apply Z.eqb_eq in Hc.
    specialize (Hnew m Hm Hc). apply negb_true_iff.
    unfold message_same_key. simpl.
    apply andb_false_iff. right. apply Z.eqb_neq. lia.
  - simpl. apply Z.eqb_refl.
  - intros m Hm Hc. apply filter_In in Hm. apply Z.eqb_eq in Hc.
    simpl. now apply Hnew.
Qed.

Lemma In_messages_create_message (st : Store) (now : datetime)
    (cid s r : Z) (c : string) (m : MessageRow) :
  In m (messages (snd (create_message token st now cid s r c))) ->
  m = mkMessageRow (get_new_message_id st) cid s r c (cql_timestamp now)
  \/ In m (messages st).
Proof.
  rewrite create_message_messages, In_upsert. tauto.
Qed.

Lemma append_all_messages (msgs : list (Z * Z * string)) :
  forall (st : Store) (now : datetime) (cid : Z),
    (forall m, In m (messages st) -> msg_conversation_id m = cid ->
               msg_timestamp m < cql_timestamp now) ->
    all_messages (snd (append_all token st now cid msgs)) cid
    = map item_of_response (rev (fst (append_all token st now cid msgs)))
      ++ all_messages st cid.
Proof.
  induction msgs as [| [[s r] c] rest IH]; intros st now cid Hnew;
    [reflexivity |].
  cbn [append_all].
  destruct (create_message token st now cid s r c) as [m st1] eqn:Ecm.
  assert (Hm : m = fst (create_message token st now cid s r c))
    by now rewrite Ecm.
  assert (Hst1 : st1 = snd (create_message token st now cid s r c))
    by now rewrite Ecm.
  specialize (IH st1 (now + second) cid).
  destruct (append_all token st1 (now + second) cid rest) as [ms st2] eqn:Erest.
  cbn [fst snd] in *.
  rewrite IH.
  - cbn [rev]. rewrite map_app, <- app_assoc. f_equal.
    unfold all_messages at 1. rewrite Hst1.
    rewrite select_messages_create_message by assumption.
    rewrite Hm. reflexivity.
  - intros m' Hin Hc. rewrite Hst1 in Hin.
    apply In_messages_create_message in Hin.
    pose proof (cql_timestamp_second now) as Hlater.
    destruct Hin as [-> | Hin]; cbn [msg_timestamp].
    + exact Hlater.
    + specialize (Hnew m' Hin Hc). lia.
Qed.

Lemma append_all_length (msgs : list (Z * Z * string)) :
  forall (st : Store) (now : datetime) (cid : Z),
    length (fst (append_all token st now cid msgs)) = length msgs.
Proof.
  induction msgs as [| [[s r] c] rest IH]; intros st now cid;
    [reflexivity |].
  cbn [append_all].
  destruct (create_message token st now cid s r c) as [m st1].
  specialize (IH st1 (now + second) cid).
  destruct (append_all token st1 (now + second) cid rest) as [ms st2].
  cbn [fst] in *. simpl. now rewrite IH.
Qed.

(** C3. For a page number and a limit of at least 1,
    [get_conversation_messages] returns the [limit] items that stand at
    offset [(page - 1) * limit] of the conversation's messages sorted
    newest first (so page 1 holds the newest [limit] of them), and its total
    is the number of all the messages of the conversation.  In particular,
    after 25 appends one second apart to conversation 1, which had no
    message, page 2 with limit 20 holds the 5 messages appended first, the
    newest of them first, and the total is 25. *)
Theorem conversation_messages_page (st : Store) (cid page limit : Z) :
  1 <= page -> 1 <= limit ->
  get_conversation_messages st cid page limit
  = (firstn (Z.to_nat limit)
       (skipn (Z.to_nat ((page - 1) * limit)) (all_messages st cid)),
     count_messages st cid)
  /\ newest_first mi_created_at (all_messages st cid)
  /\ Permutation
       (map (message_item cid)
            (filter (fun m => msg_conversation_id m =? cid) (messages st)))
       (all_messages st cid)
  /\ (get_conversation_messages st cid 1 limit
      = (firstn (Z.to_nat limit) (all_messages st cid),
         count_messages st cid))
  /\ (forall (now : datetime) (msgs : list (Z * Z * string)),
        count_messages st 1 = 0 ->
        length msgs = 25%nat ->
        let appended := append_all token st now 1 msgs in
        get_conversation_messages (snd appended) 1 2 20
        = (map item_of_response (rev (firstn 5 (fst appended))), 25)).
Proof.
  intros Hpage Hlimit.
  split; [| split; [| split; [| split]]].
  - rewrite get_conversation_messages_eq, all_messages_length.
    now rewrite slice_window by nia.
  - apply all_messages_sorted.
  - apply all_messages_perm.
  - rewrite get_conversation_messages_eq, all_messages_length.
    change ((1 - 1) * limit) with 0.
    now rewrite slice_window by lia.
  - intros now msgs Hnone Hlen appended. subst appended.
    assert (Hempty : filter (fun m => msg_conversation_id m =? 1)
                       (messages st) = []).
    { apply filter_nil_length. unfold count_messages in Hnone. lia. }
    assert (Hold : all_messages st 1 = []).
    { unfold all_messages, select_messages. now rewrite Hempty. }
    rewrite get_conversation_messages_eq, append_all_messages.
    + rewrite Hold, app_nil_r.
      pose proof (append_all_length msgs st now 1) as Hl.
      rewrite Hlen in Hl.
      set (resp := fst (append_all token st now 1 msgs)) in *.
      rewrite length_map, length_rev, Hl.
      change ((2 - 1) * 20) with 20.
      rewrite slice_window by lia.
      rewrite skipn_map, firstn_map, skipn_rev, Hl.
      change (25 - Z.to_nat 20)%nat with 5%nat.
      rewrite firstn_all2; [reflexivity |].
      rewrite length_rev, length_firstn. lia.
    + intros m Hm Hc.
      assert (Hin : In m (filter (fun m => msg_conversation_id m =? 1)
                            (messages st))).
      { apply filter_In. split; [assumption | now apply Z.eqb_eq]. }
      rewrite Hempty in Hin. destruct Hin.
Qed.

End Writes.

(** ** The last-message cache *)

Section Cache.

Variable token : Z -> Z.

Lemma select_cache_upsert (row : CacheRow) (st : Store) :
  filter (fun r => lmc_conversation_id r =? lmc_conversation_id row)
    (Table.upsert cache_same_key (cache_before token) row
       (last_message_cache st))
  = [row].
Proof. now apply (filter_upsert_key lmc_conversation_id). Qed.

(** C5 (amended). Right after [create_message st now cid s r c],
    [get_conversation cid] finds a cache row, and the snapshot it returns has
    the content [c] as last message, [s] and [r] as sender and receiver, and
    as last timestamp the timestamp stamped on the created message cut to the
    millisecond: the timestamp under which the message itself is stored and
    read.  It is the stamped timestamp when that is a whole number of
    milliseconds. *)
Theorem get_conversation_after_create_message (st : Store) (now : datetime)
    (cid s r : Z) (c : string) :
  let created := create_message token st now cid s r c in
  get_conversation (snd created) cid
  = Some (mkConversationDetail cid s r
            (Some (cql_timestamp (mr_timestamp (fst created)))) (Some c))
  /\ In (mkMessageItem (mr_message_id (fst created)) s r c
           (cql_timestamp (mr_timestamp (fst created))) cid)
        (all_messages (snd created) cid)
  /\ (Z.rem now 1000 = 0 ->
      get_conversation (snd created) cid
      = Some (mkConversationDetail cid s r
                (Some (mr_timestamp (fst created))) (Some c)))
  /\ mr_timestamp (fst created) = now
  /\ mr_content (fst created) = c
  /\ mr_sender_id (fst created) = s
  /\ mr_receiver_id (fst created) = r
  /\ mr_conversation_id (fst created) = cid.
Proof.
  intros created. subst created.
  rewrite create_message_response. cbn [mr_timestamp mr_message_id].
  assert (Hget : get_conversation (snd (create_message token st now cid s r c))
                   cid
                 = Some (mkConversationDetail cid s r
                           (Some (cql_timestamp now)) (Some c))).
  { unfold get_conversation, select_cache. rewrite create_message_cache.
    pose proof (select_cache_upsert
                  (mkCacheRow cid s r (Some (cql_timestamp now)) (Some c)) st)
      as Hsel.
    cbn [lmc_conversation_id] in Hsel. now rewrite Hsel. }
  split; [exact Hget |].
  split.
  { apply In_all_messages.
    exists (mkMessageRow (get_new_message_id st) cid s r c
              (cql_timestamp now)).
    split; [| split; reflexivity].
    rewrite create_message_messages. apply In_upsert. now left. }
  split; [| now repeat split].
  intros Hwhole. now rewrite Hget, (cql_timestamp_whole now Hwhole).
Qed.

End Cache.

(** ** The conversation directory *)


Lemma between_sym (a b : Z) (row : CacheRow) :
  between a b row = between b a row.
Proof. unfold between. apply orb_comm. Qed.

Lemma between_same_pair (a b x y : Z) (r1 r2 : CacheRow) :
  between a b r1 = true -> between x y r1 = true ->
  between x y r2 = between a b r2.
Proof.
  unfold between. intros H1 H2.
  apply orb_true_iff in H1. apply orb_true_iff in H2.
  rewrite !andb_true_iff, !Z.eqb_eq in H1, H2.
  destruct H1 as [[Ha Hb] | [Ha Hb]], H2 as [[Hx Hy] | [Hx Hy]];
    assert (x = a \/ x = b) as Hxa by lia;
    assert (y = a \/ y = b) as Hya by lia;
    try (replace x with a by lia; replace y with b by lia; reflexivity);
    try (replace x with b by lia; replace y with a by lia; apply orb_comm).
Qed.

Section Directory.

Variable token : Z -> Z.

Lemma get_conversation_of_row (st : Store) (row : CacheRow) :
  In row (last_message_cache st) ->
  exists d, get_conversation st (lmc_conversation_id row) = Some d
            /\ cd_conversation_id d = lmc_conversation_id row.
Proof.
  intros Hin. unfold get_conversation, select_cache.
  destruct (filter _ (last_message_cache st)) as [| r0 rest] eqn:E.
  - assert (H : In row []); [| destruct H].
    rewrite <- E. apply filter_In. split; [assumption | apply Z.eqb_refl].
  - exists (conversation_detail r0). split; [reflexivity |].
    assert (H : In r0 (r0 :: rest)) by now left.
    rewrite <- E in H. apply filter_In in H. now apply Z.eqb_eq.
Qed.

Lemma select_cache_by_pair_between (st : Store) (x y : Z) (row : CacheRow) :
  In row (select_cache_by_pair st x y) ->
  In row (last_message_cache st) /\ between x y row = true.
Proof.
  unfold select_cache_by_pair. rewrite filter_In. intros [Hin Hp].
  split; [assumption |]. unfold between. now rewrite Hp.
Qed.

(** The pair has a conversation: the call returns it and writes nothing. *)
Lemma create_or_get_existing (st : Store) (now : datetime) (x y c : Z) :
  (forall row, In row (last_message_cache st) -> between x y row = true ->
               lmc_conversation_id row = c) ->
  (exists row, In row (last_message_cache st) /\ between x y row = true) ->
  exists d, create_or_get_conversation token st now x y = (Some d, st)
            /\ cd_conversation_id d = c.
Proof.
  intros Hone [row [Hrow Hbetween]]. unfold create_or_get_conversation.
  destruct (select_cache_by_pair st x y) as [| r1 rest1] eqn:E1.
  - destruct (select_cache_by_pair st y x) as [| r2 rest2] eqn:E2.
    + exfalso. unfold between in Hbetween.
      apply orb_true_iff in Hbetween. destruct Hbetween as [Hp | Hp].
      * assert (H : In row (select_cache_by_pair st x y))
          by (apply filter_In; now split).
        rewrite E1 in H. destruct H.
      * assert (H : In row (select_cache_by_pair st y x))
          by (apply filter_In; now split).
        rewrite E2 in H. destruct H.
    + assert (H : In r2 (select_cache_by_pair st y x))
        by (rewrite E2; now left).
      apply select_cache_by_pair_between in H. destruct H as [Hin Hb].
      rewrite between_sym in Hb.
      destruct (get_conversation_of_row st r2 Hin) as [d [Hd Hid]].
      exists d. rewrite Hd. split; [reflexivity |].
      rewrite Hid. now apply Hone.
  - assert (H : In r1 (select_cache_by_pair st x y))
      by (rewrite E1; now left).
    apply select_cache_by_pair_between in H. destruct H as [Hin Hb].
    destruct (get_conversation_of_row st r1 Hin) as [d [Hd Hid]].
    exists d. rewrite Hd. split; [reflexivity |].
    rewrite Hid. now apply Hone.
Qed.

(** The pair has no conversation: the call writes a row to [conversations]
    and a row to the cache under a new id, and returns that cache row. *)
Lemma create_or_get_new (st : Store) (now : datetime) (x y : Z) :
  (forall row, In row (last_message_cache st) -> between x y row = false) ->
  let n := get_new_conversation_id st in
  create_or_get_conversation token st now x y
  = (Some (mkConversationDetail n x y (Some now) None),
     mkStore (messages st)
       (Table.upsert conversation_same_key (conversation_before token)
          (mkConversationRow n x y (cql_timestamp now))
          (conversations st))
       (Table.upsert cache_same_key (cache_before token)
          (mkCacheRow n x y (Some (cql_timestamp now)) None)
          (last_message_cache st))).
Proof.
  intros Hnone n. unfold create_or_get_conversation.
  destruct (select_cache_by_pair st x y) as [| r1 rest1] eqn:E1.
  - destruct (select_cache_by_pair st y x) as [| r2 rest2] eqn:E2;
      [reflexivity |].
    assert (H : In r2 (select_cache_by_pair st y x))
      by (rewrite E2; now left).
    apply select_cache_by_pair_between in H. destruct H as [Hin Hb].
    rewrite between_sym, (Hnone r2 Hin) in Hb. discriminate.
  - assert (H : In r1 (select_cache_by_pair st x y))
      by (rewrite E1; now left).
    apply select_cache_by_pair_between in H. destruct H as [Hin Hb].
    rewrite (Hnone r1 Hin) in Hb. discriminate.
Qed.

Lemma create_or_get_unchanged_or_new (st : Store) (now : datetime)
    (x y : Z) :
  snd (create_or_get_conversation token st now x y) = st
  \/ (forall row, In row (last_message_cache st) ->
                  between x y row = false).
Proof.
  unfold create_or_get_conversation.
  destruct (select_cache_by_pair st x y) as [| r1 rest1] eqn:E1;
    [| now left].
  destruct (select_cache_by_pair st y x) as [| r2 rest2] eqn:E2;
    [| now left].
  right. intros row Hrow. unfold between.
  apply orb_false_iff. split.
  - destruct (_ && _) eqn:Ep; [| reflexivity].
    assert (H : In row (select_cache_by_pair st x y))
      by (apply filter_In; now split).
    rewrite E1 in H. destruct H.
  - destruct (_ && _) eqn:Ep; [| reflexivity].
    assert (H : In row (select_cache_by_pair st y x))
      by (apply filter_In; now split).
    rewrite E2 in H. destruct H.
Qed.

Lemma pair_rows_decide (st : Store) (x y : Z) :
  (exists row, In row (last_message_cache st) /\ between x y row = true)
  \/ (forall row, In row (last_message_cache st) -> between x y row = false).
Proof.
  destruct (existsb (between x y) (last_message_cache st)) eqn:E.
  - left. now apply existsb_exists.
  - right. intros row Hrow.
    destruct (between x y row) eqn:Eb; [| reflexivity].
    assert (H : existsb (between x y) (last_message_cache st) = true)
      by (apply existsb_exists; now exists row).
    congruence.
Qed.

(** C1. In a directory that has at most one conversation for the pair of
    [a] and [b], [create_or_get_conversation a b] followed by a second call
    for the same pair, in the same or in the other argument order, returns
    the same conversation id both times; every cache row of the pair has
    that id after the first call, and the second call writes nothing, so no
    second conversation is created for the pair. *)
Theorem create_or_get_conversation_twice (st : Store) (now1 now2 : datetime)
    (a b x y : Z) :
  pair_has_one_conversation st a b ->
  (x = a /\ y = b) \/ (x = b /\ y = a) ->
  let first := create_or_get_conversation token st now1 a b in
  let again := create_or_get_conversation token (snd first) now2 x y in
  exists d1 d2,
    fst first = Some d1 /\ fst again = Some d2
    /\ cd_conversation_id d1 = cd_conversation_id d2
    /\ snd again = snd first
    /\ (forall row, In row (last_message_cache (snd first)) ->
                    between a b row = true ->
                    lmc_conversation_id row = cd_conversation_id d1).
Proof.
  intros Hone Hxy first again.
  assert (Hsame : forall row, between x y row = between a b row).
  { intros row. destruct Hxy as [[-> ->] | [-> ->]];
      [reflexivity | apply between_sym]. }
  destruct (pair_rows_decide st a b) as [[row [Hrow Hb]] | Hnone].
  - set (c := lmc_conversation_id row).
    assert (Hall : forall r, In r (last_message_cache st) ->
                             between a b r = true ->
                             lmc_conversation_id r = c).
    { intros r Hr Hbr. symmetry. now apply Hone. }
    destruct (create_or_get_existing st now1 a b c Hall) as [d1 [E1 Hc1]];
      [now exists row |].
    subst first again. rewrite E1. cbn [fst snd].
    destruct (create_or_get_existing st now2 x y c) as [d2 [E2 Hc2]].
    + intros r Hr Hbr. rewrite Hsame in Hbr. now apply Hall.
    + exists row. now rewrite Hsame.
    + exists d1, d2. rewrite E2. cbn [fst snd].
      repeat split; try congruence.
      intros r Hr Hbr. rewrite Hc1. now apply Hall.
  - pose proof (create_or_get_new st now1 a b Hnone) as E1. cbv zeta in E1.
    set (n := get_new_conversation_id st) in *.
    subst first again. rewrite E1. cbn [fst snd].
    set (st1 := mkStore _ _ _).
    assert (Hall : forall r, In r (last_message_cache st1) ->
                             between a b r = true ->
                             lmc_conversation_id r = n).
    { intros r Hr Hbr. subst st1. cbn [last_message_cache] in Hr.
      apply In_upsert in Hr. destruct Hr as [-> | [Hr _]]; [reflexivity |].
      rewrite (Hnone r Hr) in Hbr. discriminate. }
    destruct (create_or_get_existing st1 now2 x y n) as [d2 [E2 Hc2]].
    + intros r Hr Hbr. rewrite Hsame in Hbr. now apply Hall.
    + exists (mkCacheRow n a b (Some (cql_timestamp now1)) None). split.
      * subst st1. cbn [last_message_cache]. apply In_upsert. now left.
      * rewrite Hsame. unfold between. cbn.
        now rewrite !Z.eqb_refl.
    + eexists. exists d2. rewrite E2. cbn [fst snd].
      repeat split; try (cbn; congruence). exact Hall.
Qed.

(** The invariant holds in the empty store and every call of
    [create_or_get_conversation] keeps it. *)
Lemma one_conversation_per_pair_empty :
  one_conversation_per_pair empty_store.
Proof. intros a b r1 r2 []. Qed.

Lemma one_conversation_per_pair_create_or_get (st : Store) (now : datetime)
    (x y : Z) :
  one_conversation_per_pair st ->
  one_conversation_per_pair
    (snd (create_or_get_conversation token st now x y)).
Proof.
  intros Hinv.
  destruct (pair_rows_decide st x y) as [[row [Hrow Hb]] | Hnone].
  - destruct (create_or_get_existing st now x y (lmc_conversation_id row))
      as [d [E _]].
    + intros r Hr Hbr. symmetry. now apply (Hinv x y).
    + now exists row.
    + now rewrite E.
  - rewrite (create_or_get_new st now x y Hnone). cbn [snd].
    intros a b r1 r2 H1 H2 Hb1 Hb2. cbn [last_message_cache] in H1, H2.
    apply In_upsert in H1. apply In_upsert in H2.
    destruct H1 as [-> | [H1 _]], H2 as [-> | [H2 _]].
    + reflexivity.
    + exfalso.
      rewrite (between_same_pair x y a b
                 (mkCacheRow (get_new_conversation_id st) x y
                    (Some (cql_timestamp now)) None)
                 r2) in Hb2.
      * rewrite (Hnone r2 H2) in Hb2. discriminate.
      * unfold between. cbn. now rewrite !Z.eqb_refl.
      * exact Hb1.
    + exfalso.
      rewrite (between_same_pair x y a b
                 (mkCacheRow (get_new_conversation_id st) x y
                    (Some (cql_timestamp now)) None)
                 r1) in Hb1.
      * rewrite (Hnone r1 H1) in Hb1. discriminate.
      * unfold between. cbn. now rewrite !Z.eqb_refl.
      * exact Hb2.
    + now apply (Hinv a b).
Qed.

(** [create_message] keeps the invariant when the conversation it appends
    to is the only one its sender and receiver may have. *)
Lemma one_conversation_per_pair_create_message (st : Store) (now : datetime)
    (cid s r : Z) (c : string) :
  one_conversation_per_pair st ->
  (forall row, In row (last_message_cache st) -> between s r row = true ->
               lmc_conversation_id row = cid) ->
  one_conversation_per_pair (snd (create_message token st now cid s r c)).
Proof.
  intros Hinv Hown a b r1 r2 H1 H2 Hb1 Hb2.
  rewrite create_message_cache in H1, H2.
  apply In_upsert in H1. apply In_upsert in H2.
  assert (Hnew : between s r (mkCacheRow cid s r (Some (cql_timestamp now))
                                (Some c)) = true).
  { unfold between. cbn. now rewrite !Z.eqb_refl. }
  destruct H1 as [-> | [H1 _]], H2 as [-> | [H2 _]].
  - reflexivity.
  - cbn. symmetry. apply Hown; [assumption |].
    now rewrite <- (between_same_pair s r a b _ r2 Hnew Hb1).
  - cbn. apply Hown; [assumption |].
    now rewrite <- (between_same_pair s r a b _ r1 Hnew Hb2).
  - now apply (Hinv a b).
Qed.

End Directory.

(** ** Histories of calls *)


Section HistoryFacts.

Variable token : Z -> Z.



Lemma last_append_snoc (cid : Z) (calls : list Call) (call : Call) :
  append_to cid call = None ->
  last_append cid (calls ++ [call]) = last_append cid calls.
Proof.
  intros Hnone. unfold last_append. rewrite fold_left_app. cbn [fold_left].
  now rewrite Hnone.
Qed.

Lemma cache_rows_current (calls : list Call) :
  forall row, In row (last_message_cache (run token empty_store calls)) ->
              cache_row_current token calls row.
Proof.
  induction calls as [| call calls IH] using rev_ind; intros row Hrow.
  - destruct Hrow.
  - unfold run in Hrow. rewrite fold_left_app in Hrow. cbn [fold_left] in Hrow.
    fold (run token empty_store calls) in Hrow.
    assert (Hkeep : append_to (lmc_conversation_id row) call = None ->
                    cache_row_current token calls row ->
                    cache_row_current token (calls ++ [call]) row).
    { intros Hnone [(before & now & a & b & after & Hsplit & Hpair & Hid
                     & Hrow' & Hquiet)
                   | (now & s & r & c & Hlast & Hrow')].
      - left. exists before, now, a, b, (after ++ [call]).
        repeat split; try assumption.
        + rewrite Hsplit, <- app_assoc. reflexivity.
        + now rewrite last_append_snoc.
      - right. exists now, s, r, c. split; [| assumption].
        now rewrite last_append_snoc. }
    destruct call as [now a b | now cid s r c]; cbn [step] in Hrow.
    + destruct (create_or_get_unchanged_or_new token
                  (run token empty_store calls) now a b) as [E | Hnone].
      * rewrite E in Hrow. apply Hkeep; [reflexivity | now apply IH].
      * rewrite (create_or_get_new token _ now a b Hnone) in Hrow.
        cbn [snd last_message_cache] in Hrow. apply In_upsert in Hrow.
        destruct Hrow as [-> | [Hrow _]].
        -- left. exists calls, now, a, b, []. now repeat split.
        -- apply Hkeep; [reflexivity | now apply IH].
    + rewrite create_message_cache in Hrow. apply In_upsert in Hrow.
      destruct Hrow as [-> | [Hrow Hkey]].
      * right. exists now, s, r, c. split; [| reflexivity].
        unfold last_append. rewrite fold_left_app. cbn.
        now rewrite Z.eqb_refl.
      * apply Hkeep; [| now apply IH].
        unfold cache_same_key in Hkey. cbn in Hkey. cbn.
        now rewrite Hkey.
Qed.

(** C8 (amended). The cache row [create_or_get_conversation] writes for a
    new conversation has no last message, and its last timestamp is the time
    of the creation, cut to the millisecond.  After every history of calls on
    the empty store each cache row either is such a row, written by a call of
    the history that created its conversation id, with no message appended to
    that id since, or holds the sender, the receiver, the timestamp (cut to
    the millisecond) and the content of the most recent append to its id. *)
Theorem cache_row_empty_or_last_append (st : Store) (now : datetime)
    (a b : Z) (calls : list Call) :
  ((forall row, In row (last_message_cache st) -> between a b row = false) ->
   let n := get_new_conversation_id st in
   let created := create_or_get_conversation token st now a b in
   fst created = Some (mkConversationDetail n a b (Some now) None)
   /\ select_cache (snd created) n
      = [mkCacheRow n a b (Some (cql_timestamp now)) None])
  /\ (forall row, In row (last_message_cache (run token empty_store calls)) ->
                  cache_row_current token calls row).
Proof.
  split; [| apply cache_rows_current].
  intros Hnone n created. subst created.
  rewrite (create_or_get_new token st now a b Hnone). cbn [fst snd].
  split; [reflexivity |]. unfold select_cache. cbn [last_message_cache].
  exact (select_cache_upsert token
           (mkCacheRow n a b (Some (cql_timestamp now)) None) st).
Qed.

End HistoryFacts.

(** ** Listing the conversations of a user *)

Lemma NoDup_map_filter_app {A : Type} (f : A -> Z) (p q : A -> bool)
    (l : list A) :
  NoDup (map f l) ->
  (forall x, In x l -> p x = true -> q x = true -> False) ->
  NoDup (map f (filter p l ++ filter q l)).
Proof.
  induction l as [| x l IH]; intros Hnd Hpq; [constructor |].
  cbn [map] in Hnd. apply NoDup_cons_iff in Hnd. destruct Hnd as [Hx Hnd].
  assert (IH' := IH Hnd (fun y Hy => Hpq y (or_intror Hy))).
  assert (Hfresh : ~ In (f x) (map f (filter p l ++ filter q l))).
  { intros Hin. apply Hx. apply in_map_iff in Hin.
    destruct Hin as [y [Hfy Hy]]. apply in_map_iff. exists y.
    split; [assumption |].
    apply in_app_iff in Hy. destruct Hy as [Hy | Hy];
      now apply filter_In in Hy. }
  cbn [filter].
  destruct (p x) eqn:Ep, (q x) eqn:Eq.
  - exfalso. apply (Hpq x); [now left | assumption ..].
  - cbn. now constructor.
  - apply (Permutation_NoDup
             (l := f x :: map f (filter p l ++ filter q l))).
    + rewrite !map_app. cbn [map]. apply Permutation_middle.
    + now constructor.
  - exact IH'.
Qed.

Lemma length_filter_app_disjoint {A : Type} (p q : A -> bool) (l : list A) :
  (forall x, In x l -> p x = true -> q x = true -> False) ->
  length (filter p l ++ filter q l)
  = length (filter (fun x => p x || q x) l).
Proof.
  induction l as [| x l IH]; intros Hpq; [reflexivity |].
  assert (IH' := IH (fun y Hy => Hpq y (or_intror Hy))).
  rewrite length_app in *. cbn [filter].
  destruct (p x) eqn:Ep, (q x) eqn:Eq; cbn [orb length]; try lia.
  exfalso. apply (Hpq x); [now left | assumption ..].
Qed.

Lemma sort_by_last_timestamp_ok (rows : list CacheRow) :
  (forall row, In row rows -> lmc_last_timestamp row <> None) ->
  sort_by_last_timestamp rows = Ok (PyList.sort_desc timestamp_key rows).
Proof.
  intros H. unfold sort_by_last_timestamp.
  destruct (existsb _ rows) eqn:E; [| now rewrite andb_false_r].
  apply existsb_exists in E. destruct E as [row [Hrow Hnull]].
  specialize (H row Hrow). now destruct (lmc_last_timestamp row).
Qed.


(** C7 (amended). When the cache rows of the user have a last timestamp,
    [get_user_conversations] returns the page cut out of the list of the cache
    rows that name the user as sender or as receiver, sorted by last timestamp
    descending (a conversation without a message stands where the time of its
    creation puts it); the total is the length of that list; and when no row
    names the user in both roles the list has every such conversation once and
    the total is their number. *)
Theorem user_conversations_listing (st : Store) (user_id page limit : Z) :
  let rows := select_cache_by_receiver st user_id
              ++ select_cache_by_sender st user_id in
  let sorted := PyList.sort_desc timestamp_key rows in
  (forall row, In row rows -> lmc_last_timestamp row <> None) ->
  get_user_conversations st user_id page limit
  = Ok (map conversation_item
          (PyList.slice sorted ((page - 1) * limit)
             ((page - 1) * limit + limit)),
        Z.of_nat (length sorted))
  /\ newest_first timestamp_key sorted
  /\ (forall row, In row sorted <->
                  In row (last_message_cache st)
                  /\ (lmc_sender_id row = user_id
                      \/ lmc_receiver_id row = user_id))
  /\ ((forall row, In row (last_message_cache st) ->
                   ~ (lmc_sender_id row = user_id
                      /\ lmc_receiver_id row = user_id)) ->
      NoDup (map lmc_conversation_id (last_message_cache st)) ->
      NoDup (map lmc_conversation_id sorted)
      /\ length sorted
         = length (filter (fun r => (lmc_receiver_id r =? user_id)
                                    || (lmc_sender_id r =? user_id))
                          (last_message_cache st))).
Proof.
  intros rows sorted Hts.
  split; [| split; [| split]].
  - unfold get_user_conversations. fold rows.
    now rewrite (sort_by_last_timestamp_ok rows Hts).
  - apply sort_desc_sorted.
  - intros row. subst sorted rows.
    unfold select_cache_by_receiver, select_cache_by_sender.
    rewrite In_sort_desc, in_app_iff, !filter_In, !Z.eqb_eq. tauto.
  - intros Hroles Hkeys.
    assert (Hdisj : forall x, In x (last_message_cache st) ->
                              (lmc_receiver_id x =? user_id) = true ->
                              (lmc_sender_id x =? user_id) = true -> False).
    { intros x Hx Hr Hs. apply (Hroles x Hx).
      now rewrite Z.eqb_eq in Hr, Hs. }
    split.
    + apply (Permutation_NoDup (l := map lmc_conversation_id rows)).
      * apply Permutation_map, sort_desc_perm.
      * now apply NoDup_map_filter_app.
    + subst sorted. rewrite sort_desc_length.
      now apply length_filter_app_disjoint.
Qed.


(** ** Allocation of identifiers *)

(** The allocator looks at the row a scan returns first: when a row with a
    larger id is stored behind it, the id it returns is not above the ids in
    use. *)
Lemma get_new_conversation_id_not_above (st : Store)
    (r0 r : ConversationRow) (rest : list ConversationRow) :
  conversations st = r0 :: rest -> In r rest ->
  conv_conversation_id r0 < conv_conversation_id r ->
  get_new_conversation_id st <= conv_conversation_id r.
Proof.
  intros Hscan _ Hlt.
  unfold get_new_conversation_id, select_conversation_id_limit_1.
  rewrite Hscan. cbn. lia.
Qed.

(** C2. On a store that holds the conversations 1 and 2 and returns row 1
    first, [get_new_conversation_id] returns 2, an id that is in use, and the
    next first contact is given the id of the conversation of users 3 and 4;
    [get_new_message_id] returns the id 2 of a stored message in the same
    way. *)
Theorem new_id_is_in_use :
  get_new_conversation_id Example.two_conversations = 2
  /\ In 2 (map conv_conversation_id (conversations Example.two_conversations))
  /\ option_map cd_conversation_id
       (fst (create_or_get_conversation Example.by_key
               Example.two_conversations 50 3 4)) = Some 2
  /\ option_map cd_conversation_id
       (fst (create_or_get_conversation Example.by_key
               Example.two_conversations 50 5 6)) = Some 2
  /\ get_new_message_id Example.two_messages = 2
  /\ In 2 (map msg_message_id (messages Example.two_messages)).
Proof.
  vm_compute. repeat split; auto.
Qed.

(** C7, as it is written, fails: user 1 has a conversation with a message
    stamped 20 milliseconds and a conversation created at 30 milliseconds
    that has no message, and the listing puts the second one first. *)
Lemma conversation_without_messages_listed_first :
  exists items,
    get_user_conversations Example.second_contact 1 1 20 = Ok (items, 2)
    /\ ~ without_messages_last Example.second_contact items.
Proof.
  eexists. split; [vm_compute; reflexivity |].
  intros H.
  specialize (H 0%nat 1%nat _ _ (Nat.lt_0_1) eq_refl eq_refl eq_refl).
  vm_compute in H. discriminate.
Qed.

(** C5, as it is written, fails: the message is stamped 1234 microseconds,
    and the snapshot read right after the append has the last timestamp 1000
    microseconds. *)
Lemma cache_timestamp_differs_from_stamp :
  let created :=
    create_message Example.by_key empty_store 1234 1 7 9 "hello"%string in
  mr_timestamp (fst created) = 1234
  /\ get_conversation (snd created) 1
     = Some (mkConversationDetail 1 7 9 (Some 1000) (Some "hello"%string))
  /\ ~ (forall d, get_conversation (snd created) 1 = Some d ->
                  cd_last_message_at d = Some (mr_timestamp (fst created))).
Proof.
  split; [reflexivity |]. split; [reflexivity |].
  intros H.
  specialize (H (mkConversationDetail 1 7 9 (Some 1000)
                   (Some "hello"%string)) eq_refl).
  discriminate.
Qed.

(** C8, as it is written, fails: the cache row of a conversation that was just
    created, and has no message, has a last timestamp. *)
Lemma new_cache_row_has_last_timestamp :
  let created :=
    create_or_get_conversation Example.by_key empty_store 10234 7 9 in
  last_message_cache (snd created) = [mkCacheRow 1 7 9 (Some 10000) None]
  /\ count_messages (snd created) 1 = 0
  /\ ~ (forall row, In row (last_message_cache (snd created)) ->
                    lmc_last_message row = None
                    /\ lmc_last_timestamp row = None).
Proof.
  split; [reflexivity |]. split; [reflexivity |].
  intros H.
  destruct (H (mkCacheRow 1 7 9 (Some 10000) None) (or_introl eq_refl))
    as [_ Hts].
  discriminate.
Qed.

(** ** The theorems at work *)

Lemma create_or_get_conversation_twice_witness :
  let first :=
    create_or_get_conversation Example.by_key Example.two_conversations
      50 7 9 in
  let again := create_or_get_conversation Example.by_key (snd first) 60 9 7 in
  exists d1 d2,
    fst first = Some d1 /\ fst again = Some d2
    /\ cd_conversation_id d1 = cd_conversation_id d2
    /\ snd again = snd first
    /\ (forall row, In row (last_message_cache (snd first)) ->
                    between 7 9 row = true ->
                    lmc_conversation_id row = cd_conversation_id d1).
Proof.
  apply (create_or_get_conversation_twice Example.by_key
           Example.two_conversations 50 60 7 9 9 7).
  - intros r1 r2 H1 H2. vm_compute in H1, H2.
    destruct H1 as [<- | [<- | []]], H2 as [<- | [<- | []]];
      vm_compute; congruence.
  - right. split; reflexivity.
Defined.

Lemma conversation_messages_page_witness :
  get_conversation_messages Example.three_messages 1 2 2
  = ([mkMessageItem 1 1 2 "a" 20000 1], 3).
Proof.
  destruct (conversation_messages_page Example.by_key Example.three_messages
              1 2 2) as [H _]; [lia | lia |].
  rewrite H. vm_compute. reflexivity.
Defined.

Lemma pages_concatenate_to_all_messages_witness :
  read_pages 4 Example.three_messages 1 2 1
  = Some [mkMessageItem 3 1 2 "c" 40000 1; mkMessageItem 2 2 1 "b" 30000 1;
          mkMessageItem 1 1 2 "a" 20000 1].
Proof.
  rewrite (pages_concatenate_to_all_messages Example.three_messages 1 2 4).
  - vm_compute. reflexivity.
  - lia.
  - vm_compute. lia.
Defined.

Lemma out_of_range_page_is_empty_witness :
  get_conversation_messages Example.three_messages 1 3 2 = ([], 3)
  /\ get_messages_before_timestamp Example.three_messages 1 40000 2 2
     = ([], 2).
Proof.
  destruct (out_of_range_page_is_empty Example.three_messages 1 40000 3 2)
    as [H1 _].
  destruct (out_of_range_page_is_empty Example.three_messages 1 40000 2 2)
    as [_ H2].
  split.
  - rewrite H1; [reflexivity | vm_compute; discriminate].
  - rewrite H2; [reflexivity | vm_compute; discriminate].
Defined.

Lemma user_conversations_listing_witness :
  get_user_conversations Example.second_contact 1 1 20
  = Ok ([mkConversationItem 2 1 3 (Some 30000) None;
         mkConversationItem 1 1 2 (Some 20000) (Some "hi"%string)], 2).
Proof.
  destruct (user_conversations_listing Example.second_contact 1 1 20)
    as [H _].
  - intros row Hrow. vm_compute in Hrow.
    destruct Hrow as [<- | [<- | []]]; discriminate.
  - rewrite H. vm_compute. reflexivity.
Defined.

Lemma cache_row_empty_or_last_append_witness :
  (fst (create_or_get_conversation Example.by_key empty_store 10234 7 9)
   = Some (mkConversationDetail 1 7 9 (Some 10234) None)
   /\ select_cache
        (snd (create_or_get_conversation Example.by_key empty_store 10234
                7 9)) 1
      = [mkCacheRow 1 7 9 (Some 10000) None])
  /\ cache_row_current Example.by_key
       [CreateOrGet 10000 1 2; CreateMessage 20000 1 1 2 "hi"%string;
        CreateOrGet 30000 1 3]
       (mkCacheRow 1 1 2 (Some 20000) (Some "hi"%string))
  /\ cache_row_current Example.by_key
       [CreateOrGet 10000 1 2; CreateMessage 20000 1 1 2 "hi"%string;
        CreateOrGet 30000 1 3]
       (mkCacheRow 2 1 3 (Some 30000) None).
Proof.
  destruct (cache_row_empty_or_last_append Example.by_key empty_store 10234
              7 9
              [CreateOrGet 10000 1 2; CreateMessage 20000 1 1 2 "hi"%string;
               CreateOrGet 30000 1 3]) as [H Hrows].
  split; [apply H; intros row [] |].
  split; apply Hrows; vm_compute; tauto.
Defined.

(** * Further properties of the reads and the writes *)

(** ** Pages *)

Lemma In_firstn_list {A : Type} (n : nat) (l : list A) (x : A) :
  In x (firstn n l) -> In x l.
Proof.
  intros H. rewrite <- (firstn_skipn n l). apply in_app_iff. now left.
Qed.

Lemma In_skipn_list {A : Type} (n : nat) (l : list A) (x : A) :
  In x (skipn n l) -> In x l.
Proof.
  intros H. rewrite <- (firstn_skipn n l). apply in_app_iff. now right.
Qed.

Lemma In_slice {A : Type} (l : list A) (start stop : Z) (x : A) :
  In x (PyList.slice l start stop) -> In x l.
Proof.
  unfold PyList.slice. intros H.
  apply In_firstn_list in H. now apply In_skipn_list in H.
Qed.

Lemma slice_to_zero {A : Type} (l : list A) (start : Z) :
  PyList.slice l start 0 = [].
Proof.
  unfold PyList.slice, PyList.clamp_index.
  replace (Z.to_nat (_ - _)) with 0%nat; [reflexivity |].
  destruct (start <? 0) eqn:E; cbn [Z.ltb Z.compare]; lia.
Qed.

(** Whatever the page and the limit, an item of a page of
    [get_conversation_messages] is a stored message of the conversation asked
    for, and an item of a page of [get_messages_before_timestamp] is moreover
    older than the bound: no read returns a message of another conversation
    or a message that is not stored. *)
Theorem page_items_are_stored (st : Store) (cid : Z) (T : datetime)
    (page limit : Z) (item : MessageItem) :
  (In item (fst (get_conversation_messages st cid page limit)) ->
   exists row, In row (messages st) /\ msg_conversation_id row = cid
               /\ item = message_item cid row)
  /\ (In item (fst (get_messages_before_timestamp st cid T page limit)) ->
      exists row, In row (messages st) /\ msg_conversation_id row = cid
                  /\ msg_timestamp row < T
                  /\ item = message_item cid row).
Proof.
  split; intros H.
  - rewrite get_conversation_messages_eq in H. cbn [fst] in H.
    apply In_slice in H. now apply In_all_messages.
  - rewrite get_messages_before_timestamp_eq in H. cbn [fst] in H.
    apply In_slice in H. rewrite all_messages_before_filter in H.
    apply filter_In in H. destruct H as [H Hlt].
    apply In_all_messages in H. destruct H as [row (Hrow & Hc & Hitem)].
    exists row. repeat split; try assumption.
    apply Z.ltb_lt in Hlt. now rewrite Hitem in Hlt.
Qed.

Lemma page_items_are_stored_witness :
  exists row, In row (messages Example.three_messages)
              /\ msg_conversation_id row = 1
              /\ mkMessageItem 1 1 2 "a" 20000 1 = message_item 1 row.
Proof.
  apply (page_items_are_stored Example.three_messages 1 0 2 2).
  vm_compute. now left.
Defined.

(** Page 0, and any page with limit 0, is empty for both message reads, and
    the total is still the number of the qualifying messages. *)
Theorem page_zero_and_limit_zero_are_empty (st : Store) (cid : Z)
    (T : datetime) (page limit : Z) :
  get_conversation_messages st cid 0 limit = ([], count_messages st cid)
  /\ get_conversation_messages st cid page 0 = ([], count_messages st cid)
  /\ get_messages_before_timestamp st cid T 0 limit
     = ([], count_messages_before st cid T)
  /\ get_messages_before_timestamp st cid T page 0
     = ([], count_messages_before st cid T).
Proof.
  rewrite !get_conversation_messages_eq, !get_messages_before_timestamp_eq.
  rewrite all_messages_length, all_messages_before_length.
  replace ((0 - 1) * limit + limit) with 0 by lia.
  rewrite !Z.mul_0_r, !Z.add_0_r.
  now rewrite !slice_to_zero.
Qed.

(** For a page number of at least 1 and a limit that is not negative, the
    number of items of the page is the smaller of the limit and of what the
    list still holds from the offset of the page on. *)
Theorem page_length (st : Store) (cid page limit : Z) :
  1 <= page -> 0 <= limit ->
  Z.of_nat (length (fst (get_conversation_messages st cid page limit)))
  = Z.max 0 (Z.min limit (count_messages st cid - (page - 1) * limit)).
Proof.
  intros Hpage Hlimit.
  rewrite get_conversation_messages_eq. cbn [fst].
  rewrite slice_window by nia.
  rewrite length_firstn, length_skipn, <- all_messages_length.
  assert (0 <= (page - 1) * limit) by nia. lia.
Qed.

Lemma page_length_witness :
  Z.of_nat (length (fst (get_conversation_messages Example.three_messages
                           1 2 2)))
  = Z.max 0 (Z.min 2 (count_messages Example.three_messages 1 - (2 - 1) * 2)).
Proof.
  apply (page_length Example.three_messages 1 2 2); lia.
Defined.

(** ** The timestamp bound *)



(** ** Looking a conversation up *)

(** [get_conversation] returns [None] exactly when no cache row has the id,
    and what it returns otherwise is built from a cache row of that id. *)
Theorem get_conversation_lookup (st : Store) (cid : Z) :
  (get_conversation st cid = None <->
   forall row, In row (last_message_cache st) ->
               lmc_conversation_id row <> cid)
  /\ (forall d, get_conversation st cid = Some d ->
                cd_conversation_id d = cid
                /\ exists row, In row (last_message_cache st)
                               /\ d = conversation_detail row).
Proof.
  unfold get_conversation, select_cache.
  destruct (filter _ (last_message_cache st)) as [| r0 rest] eqn:E.
  - split; [split; [| reflexivity] | discriminate].
    intros _ row Hrow Hc.
    assert (H : In row []); [| destruct H].
    rewrite <- E. apply filter_In. split; [assumption | now apply Z.eqb_eq].
  - assert (H : In r0 (r0 :: rest)) by now left.
    rewrite <- E in H. apply filter_In in H. destruct H as [Hin Hc].
    apply Z.eqb_eq in Hc.
    split; [split; [discriminate |] |].
    + intros Hnone. now destruct (Hnone r0 Hin).
    + intros d [= <-]. split; [exact Hc | now exists r0].
Qed.

(** ** What a write leaves alone *)

Lemma filter_upsert_frame {A : Type} (p : A -> bool)
    (same_key before : A -> A -> bool) (x : A) (l : list A) :
  p x = false ->
  (forall y, In y l -> p y = true -> same_key x y = false) ->
  filter p (Table.upsert same_key before x l) = filter p l.
Proof.
  intros Hx Hl. unfold Table.upsert.
  rewrite filter_place by assumption.
  apply filter_implied. intros y Hy Hp.
  now rewrite (Hl y Hy Hp).
Qed.

Lemma place_perm {A : Type} (before : A -> A -> bool) (x : A) (l : list A) :
  Permutation (x :: l) (Table.place before x l).
Proof.
  induction l as [| y l IH]; cbn; [reflexivity |].
  destruct (before x y); [reflexivity |].
  etransitivity; [apply perm_swap |]. now constructor.
Qed.

Section Frames.

Variable token : Z -> Z.

Lemma select_messages_other (st : Store) (now : datetime) (cid s r : Z)
    (c : string) (other : Z) (p : MessageRow -> bool) :
  other <> cid ->
  filter (fun m => (msg_conversation_id m =? other) && p m)
    (messages (snd (create_message token st now cid s r c)))
  = filter (fun m => (msg_conversation_id m =? other) && p m) (messages st).
Proof.
  intros Hother. rewrite create_message_messages.
  apply filter_upsert_frame.
  - cbn. replace (cid =? other) with false; [reflexivity |].
    symmetry. apply Z.eqb_neq. congruence.
  - intros y _ Hy. apply andb_true_iff in Hy. destruct Hy as [Hy _].
    apply Z.eqb_eq in Hy. unfold message_same_key. cbn.
    replace (cid =? msg_conversation_id y) with false; [reflexivity |].
    symmetry. apply Z.eqb_neq. congruence.
Qed.

(** [create_message] on one conversation changes no read of another one:
    the pages and totals of both message reads and the snapshot of
    [get_conversation] of every other conversation id are what they were; the
    [conversations] table, and with it the next conversation id, is what it
    was too. *)
Theorem create_message_leaves_other_conversations (st : Store)
    (now : datetime) (cid s r : Z) (c : string) (other : Z) :
  other <> cid ->
  let st' := snd (create_message token st now cid s r c) in
  (forall page limit,
      get_conversation_messages st' other page limit
      = get_conversation_messages st other page limit)
  /\ (forall T page limit,
         get_messages_before_timestamp st' other T page limit
         = get_messages_before_timestamp st other T page limit)
  /\ get_conversation st' other = get_conversation st other
  /\ conversations st' = conversations st
  /\ get_new_conversation_id st' = get_new_conversation_id st.
Proof.
  intros Hother st'. subst st'.
  pose proof (select_messages_other st now cid s r c other (fun _ => true)
                Hother) as Hall.
  assert (Hall' : filter (fun m => msg_conversation_id m =? other)
                    (messages (snd (create_message token st now cid s r c)))
                  = filter (fun m => msg_conversation_id m =? other)
                      (messages st)).
  { erewrite filter_ext; [erewrite Hall; apply filter_ext |];
      intros m; cbn; now rewrite andb_true_r. }
  split; [| split; [| split; [| split]]].
  - intros page limit. rewrite !get_conversation_messages_eq.
    unfold all_messages, select_messages. now rewrite Hall'.
  - intros T page limit. rewrite !get_messages_before_timestamp_eq.
    unfold all_messages_before, select_messages_before.
    now rewrite (select_messages_other st now cid s r c other
                   (fun m => msg_timestamp m <? T) Hother).
  - unfold get_conversation, select_cache. rewrite create_message_cache.
    rewrite filter_upsert_frame; [reflexivity | |].
    + cbn. apply Z.eqb_neq. congruence.
    + intros y _ Hy. apply Z.eqb_eq in Hy. unfold cache_same_key. cbn.
      apply Z.eqb_neq. congruence.
  - reflexivity.
  - reflexivity.
Qed.

(** [create_or_get_conversation] writes no message: the [messages] table,
    every page and total of both message reads and the next message id are
    what they were, whether the conversation was found or created. *)
Theorem create_or_get_conversation_leaves_messages (st : Store)
    (now : datetime) (x y : Z) :
  let st' := snd (create_or_get_conversation token st now x y) in
  messages st' = messages st
  /\ get_new_message_id st' = get_new_message_id st
  /\ (forall cid page limit,
         get_conversation_messages st' cid page limit
         = get_conversation_messages st cid page limit)
  /\ (forall cid T page limit,
         get_messages_before_timestamp st' cid T page limit
         = get_messages_before_timestamp st cid T page limit).
Proof.
  intros st'.
  assert (Hm : messages st' = messages st).
  { subst st'.
    destruct (create_or_get_unchanged_or_new token st now x y) as [E | Hnone].
    - now rewrite E.
    - now rewrite (create_or_get_new token st now x y Hnone). }
  split; [exact Hm |].
  split; [unfold get_new_message_id, select_message_id_limit_1;
          now rewrite Hm |].
  split.
  - intros cid page limit. rewrite !get_conversation_messages_eq.
    unfold all_messages, select_messages. now rewrite Hm.
  - intros cid T page limit. rewrite !get_messages_before_timestamp_eq.
    unfold all_messages_before, select_messages_before. now rewrite Hm.
Qed.

(** ** Appends and totals *)

Lemma length_filter_place {A : Type} (p : A -> bool)
    (before : A -> A -> bool) (x : A) (l : list A) :
  p x = true ->
  length (filter p (Table.place before x l)) = S (length (filter p l)).
Proof.
  intros Hx. induction l as [| y l IH]; cbn.
  - now rewrite Hx.
  - destruct (before x y); cbn.
    + now rewrite Hx.
    + destruct (p y); cbn; now rewrite IH.
Qed.

Lemma count_messages_create_message (st : Store) (now : datetime)
    (cid s r : Z) (c : string) :
  count_messages (snd (create_message token st now cid s r c)) cid
  = Z.of_nat
      (length
         (filter (fun m => msg_conversation_id m =? cid)
            (filter (fun m => negb ((cid =? msg_conversation_id m)
                                    && (cql_timestamp now =? msg_timestamp m)))
               (messages st)))) + 1.
Proof.
  unfold count_messages. rewrite create_message_messages.
  unfold Table.upsert.
  rewrite length_filter_place by (cbn; apply Z.eqb_refl).
  unfold message_same_key. cbn [msg_conversation_id msg_timestamp]. lia.
Qed.

(** An append adds one to the total of its conversation when no message of
    the conversation is stored under its timestamp, cut to the millisecond.
    An append stamped within the millisecond of the append before it, to the
    same conversation, takes the place of that message: the total stays.  A
    run of appends made one second apart, after every message of the
    conversation, adds their number to the total. *)
Theorem total_counts_appends (st : Store) (now later : datetime)
    (cid s r s' r' : Z) (c c' : string) (msgs : list (Z * Z * string)) :
  ((forall m, In m (messages st) -> msg_conversation_id m = cid ->
              msg_timestamp m <> cql_timestamp now) ->
   count_messages (snd (create_message token st now cid s r c)) cid
   = count_messages st cid + 1)
  /\ (cql_timestamp later = cql_timestamp now ->
      let st1 := snd (create_message token st now cid s r c) in
      count_messages (snd (create_message token st1 later cid s' r' c')) cid
      = count_messages st1 cid)
  /\ ((forall m, In m (messages st) -> msg_conversation_id m = cid ->
                 msg_timestamp m < cql_timestamp now) ->
      forall page limit,
        snd (get_conversation_messages
               (snd (append_all token st now cid msgs)) cid page limit)
        = count_messages st cid + Z.of_nat (length msgs)).
Proof.
  split; [| split].
  - intros Hfresh. rewrite count_messages_create_message.
    unfold count_messages. rewrite filter_implied; [reflexivity |].
    intros m Hm Hc. apply Z.eqb_eq in Hc. apply negb_true_iff.
    apply andb_false_iff. right.
    apply Z.eqb_neq. specialize (Hfresh m Hm Hc). congruence.
  - intros Hsame st1. subst st1.
    rewrite (count_messages_create_message
               (snd (create_message token st now cid s r c))).
    rewrite (count_messages_create_message st). rewrite Hsame.
    rewrite create_message_messages. unfold Table.upsert.
    rewrite filter_place.
    + unfold message_same_key.
      cbn [msg_conversation_id msg_timestamp].
      rewrite (filter_implied
                 (fun m => negb ((cid =? msg_conversation_id m)
                                 && (cql_timestamp now =? msg_timestamp m)))
                 (fun m => negb ((cid =? msg_conversation_id m)
                                 && (cql_timestamp now =? msg_timestamp m))));
        [reflexivity | now intros].
    + cbn [msg_conversation_id msg_timestamp].
      now rewrite !Z.eqb_refl.
  - intros Hnew page limit. rewrite get_conversation_messages_eq. cbn [snd].
    rewrite append_all_messages by assumption.
    rewrite length_app, length_map, length_rev, append_all_length.
    rewrite <- all_messages_length. lia.
Qed.

(** The message [create_message] returns can be read back, with its
    timestamp cut to the millisecond: the item that has its id, sender,
    receiver and content and that timestamp is in the page that holds the
    whole conversation; and when the cut timestamp is after those of the
    messages of the conversation, it is the first item of page 1 for every
    limit of at least 1. *)
Theorem created_message_is_read_back (st : Store) (now : datetime)
    (cid s r : Z) (c : string) (limit : Z) :
  let created := create_message token st now cid s r c in
  In (item_of_response (fst created))
     (fst (get_conversation_messages (snd created) cid 1
             (count_messages (snd created) cid)))
  /\ ((forall m, In m (messages st) -> msg_conversation_id m = cid ->
                 msg_timestamp m < cql_timestamp now) ->
      1 <= limit ->
      hd_error (fst (get_conversation_messages (snd created) cid 1 limit))
      = Some (item_of_response (fst created))).
Proof.
  intros created. subst created. split.
  - rewrite get_conversation_messages_eq. cbn [fst].
    change ((1 - 1)
            * count_messages (snd (create_message token st now cid s r c))
                cid)
      with 0.
    rewrite <- all_messages_length, slice_window by lia.
    cbn [Z.to_nat skipn]. rewrite firstn_all2 by lia.
    apply In_all_messages.
    exists (mkMessageRow (get_new_message_id st) cid s r c (cql_timestamp now)).
    split; [| split; reflexivity].
    rewrite create_message_messages. apply In_upsert. now left.
  - intros Hnew Hlimit. rewrite get_conversation_messages_eq. cbn [fst].
    change ((1 - 1) * limit) with 0. rewrite slice_window by lia.
    cbn [Z.to_nat skipn]. unfold all_messages.
    rewrite select_messages_create_message by assumption.
    destruct (Z.to_nat limit) eqn:E; [lia | reflexivity].
Qed.

End Frames.

Lemma create_message_leaves_other_conversations_witness :
  get_conversation
    (snd (create_message Example.by_key Example.two_messages 50000 1 1 2
            "c"%string)) 2
  = get_conversation Example.two_messages 2.
Proof.
  destruct (create_message_leaves_other_conversations Example.by_key
              Example.two_messages 50000 1 1 2 "c"%string 2) as (_ & _ & H & _);
    [discriminate | exact H].
Defined.

Lemma total_counts_appends_witness :
  count_messages
    (snd (create_message Example.by_key Example.three_messages 50234 1 2 1
            "d"%string)) 1
  = count_messages Example.three_messages 1 + 1
  /\ count_messages
       (snd (create_message Example.by_key
               (snd (create_message Example.by_key Example.three_messages
                       50234 1 2 1 "d"%string))
               50500 1 1 2 "e"%string)) 1
     = count_messages
         (snd (create_message Example.by_key Example.three_messages 50234 1
                 2 1 "d"%string)) 1
  /\ snd (get_conversation_messages
            (snd (append_all Example.by_key Example.three_messages 50234 1
                    [(1, 2, "d"%string); (2, 1, "e"%string)])) 1 1 20)
     = count_messages Example.three_messages 1 + Z.of_nat 2.
Proof.
  destruct (total_counts_appends Example.by_key Example.three_messages
              50234 50500 1 2 1 1 2 "d"%string "e"%string
              [(1, 2, "d"%string); (2, 1, "e"%string)]) as (H1 & H2 & H3).
  split; [| split].
  - apply H1. intros m Hm _. vm_compute in Hm.
    destruct Hm as [<- | [<- | [<- | []]]]; vm_compute; discriminate.
  - apply H2. reflexivity.
  - apply H3. intros m Hm _. vm_compute in Hm.
    destruct Hm as [<- | [<- | [<- | []]]]; vm_compute; reflexivity.
Defined.

Lemma created_message_is_read_back_witness :
  hd_error
    (fst (get_conversation_messages
            (snd (create_message Example.by_key Example.three_messages 50000 1
                    2 1 "d"%string)) 1 1 2))
  = Some (item_of_response
            (fst (create_message Example.by_key Example.three_messages 50000 1
                    2 1 "d"%string))).
Proof.
  destruct (created_message_is_read_back Example.by_key
              Example.three_messages 50000 1 2 1 "d"%string 2) as [_ H].
  apply H; [| lia]. intros m Hm _. vm_compute in Hm.
  destruct Hm as [<- | [<- | [<- | []]]]; vm_compute;
      first [reflexivity | discriminate | now split].
Defined.

(** ** Message ids inside one conversation *)

Lemma NoDup_map_inj {A B : Type} (f : A -> B) (l : list A) :
  (forall x y, f x = f y -> x = y) -> NoDup l -> NoDup (map f l).
Proof.
  intros Hinj Hnd. induction Hnd as [| x l Hx Hnd IH]; cbn; constructor;
    [| exact IH].
  intros Hin. apply in_map_iff in Hin. destruct Hin as [y [Hxy Hy]].
  apply Hinj in Hxy. now subst.
Qed.

Section OneConversation.

Variable token : Z -> Z.

Lemma messages_create_message_front (st : Store) (now : datetime)
    (cid s r : Z) (c : string) :
  (forall m, In m (messages st) ->
             msg_conversation_id m = cid
             /\ msg_timestamp m < cql_timestamp now) ->
  messages (snd (create_message token st now cid s r c))
  = mkMessageRow (get_new_message_id st) cid s r c (cql_timestamp now)
    :: messages st.
Proof.
  intros Hall. rewrite create_message_messages. unfold Table.upsert.
  rewrite forallb_filter_id.
  - destruct (messages st) as [| y ms] eqn:E; [reflexivity |].
    destruct (Hall y (or_introl eq_refl)) as [Hc Ht].
    cbn [Table.place]. unfold message_before. cbn.
    replace (cid =? msg_conversation_id y) with true
      by (symmetry; apply Z.eqb_eq; congruence).
    replace (msg_timestamp y <? cql_timestamp now) with true
      by (symmetry; now apply Z.ltb_lt).
    now rewrite orb_true_r.
  - apply forallb_forall. intros m Hm. destruct (Hall m Hm) as [_ Ht].
    apply negb_true_iff. unfold message_same_key. cbn.
    apply andb_false_iff. right. apply Z.eqb_neq. lia.
Qed.

Lemma message_ids_from_next (msgs : list (Z * Z * string)) :
  forall (st : Store) (now : datetime) (cid : Z),
    (forall m, In m (messages st) ->
               msg_conversation_id m = cid
               /\ msg_timestamp m < cql_timestamp now) ->
    map mr_message_id (fst (append_all token st now cid msgs))
    = map (fun i => get_new_message_id st + Z.of_nat i)
          (seq 0 (length msgs)).
Proof.
  induction msgs as [| [[s r] c] rest IH]; intros st now cid Hall;
    [reflexivity |].
  cbn [append_all].
  destruct (create_message token st now cid s r c) as [m st1] eqn:Ecm.
  assert (Hm : m = fst (create_message token st now cid s r c))
    by now rewrite Ecm.
  assert (Hst1 : st1 = snd (create_message token st now cid s r c))
    by now rewrite Ecm.
  pose proof (messages_create_message_front st now cid s r c Hall) as Hfront.
  rewrite <- Hst1 in Hfront.
  specialize (IH st1 (now + second) cid).
  destruct (append_all token st1 (now + second) cid rest) as [ms st2].
  cbn [fst length seq map] in *.
  rewrite IH.
  - rewrite Hm, create_message_response. cbn [mr_message_id].
    f_equal; [lia |].
    assert (Hnext : get_new_message_id st1 = get_new_message_id st + 1).
    { unfold get_new_message_id at 1, select_message_id_limit_1.
      now rewrite Hfront. }
    rewrite <- seq_shift, map_map. apply map_ext. intros i.
    rewrite Hnext. lia.
  - intros m' Hm'. rewrite Hfront in Hm'.
    pose proof (cql_timestamp_second now) as Hlater.
    destruct Hm' as [<- | Hm']; cbn [msg_conversation_id msg_timestamp];
      [now split |].
    destruct (Hall m' Hm'). split; [assumption | lia].
Qed.

(** In a store whose messages all belong to one conversation and are older
    than the first append, appends to that conversation made one second apart
    are given consecutive ids, starting at the id the allocator gives first,
    so they are pairwise distinct; and when the ids of the stored messages are
    all below that first id, none of the ids given is the id of a stored
    message. *)
Theorem message_ids_are_consecutive (msgs : list (Z * Z * string))
    (st : Store) (now : datetime) (cid : Z) :
  (forall m, In m (messages st) ->
             msg_conversation_id m = cid
             /\ msg_timestamp m < cql_timestamp now) ->
  let issued := map mr_message_id (fst (append_all token st now cid msgs)) in
  issued = map (fun i => get_new_message_id st + Z.of_nat i)
               (seq 0 (length msgs))
  /\ NoDup issued
  /\ ((forall m, In m (messages st) ->
                 msg_message_id m < get_new_message_id st) ->
      forall id m, In id issued -> In m (messages st) ->
                   msg_message_id m <> id).
Proof.
  intros Hall issued.
  assert (Hids : issued = map (fun i => get_new_message_id st + Z.of_nat i)
                              (seq 0 (length msgs)))
    by now apply message_ids_from_next.
  split; [exact Hids |]. rewrite Hids. split.
  - apply NoDup_map_inj; [| apply seq_NoDup].
    intros i j Hij. lia.
  - intros Hbelow id m Hid Hm. apply in_map_iff in Hid.
    destruct Hid as [i [<- _]]. specialize (Hbelow m Hm). lia.
Qed.

End OneConversation.

Lemma message_ids_are_consecutive_witness :
  map mr_message_id
    (fst (append_all Example.by_key Example.three_messages 50000 1
            [(1, 2, "d"%string); (2, 1, "e"%string)]))
  = map (fun i => get_new_message_id Example.three_messages + Z.of_nat i)
        (seq 0 2).
Proof.
  apply (message_ids_are_consecutive Example.by_key
           [(1, 2, "d"%string); (2, 1, "e"%string)]
           Example.three_messages 50000 1).
  intros m Hm. vm_compute in Hm.
  destruct Hm as [<- | [<- | [<- | []]]]; vm_compute; now split.
Defined.

(** ** Stores made by the calls *)

Lemma NoDup_map_filter {A K : Type} (k : A -> K) (p : A -> bool)
    (l : list A) :
  NoDup (map k l) -> NoDup (map k (filter p l)).
Proof.
  induction l as [| x l IH]; intros Hnd; [constructor |].
  cbn [map] in Hnd. apply NoDup_cons_iff in Hnd. destruct Hnd as [Hx Hnd].
  cbn [filter]. destruct (p x); [| now apply IH].
  cbn [map]. constructor; [| now apply IH].
  intros Hin. apply Hx. apply in_map_iff in Hin.
  destruct Hin as [y [Hk Hy]]. apply filter_In in Hy.
  apply in_map_iff. exists y. tauto.
Qed.

Lemma NoDup_map_upsert {A K : Type} (k : A -> K)
    (same_key before : A -> A -> bool) (x : A) (l : list A) :
  (forall a b, same_key a b = true <-> k a = k b) ->
  NoDup (map k l) ->
  NoDup (map k (Table.upsert same_key before x l)).
Proof.
  intros Hkey Hnd. unfold Table.upsert.
  apply (Permutation_NoDup
           (l := map k (x :: filter (fun y => negb (same_key x y)) l))).
  - apply Permutation_map, place_perm.
  - cbn [map]. constructor; [| now apply NoDup_map_filter].
    intros Hin. apply in_map_iff in Hin. destruct Hin as [y [Hk Hy]].
    apply filter_In in Hy. destruct Hy as [_ Hy].
    apply negb_true_iff in Hy.
    assert (Hs : same_key x y = true) by now apply Hkey.
    congruence.
Qed.

Lemma message_same_key_spec (a b : MessageRow) :
  message_same_key a b = true <->
  (msg_conversation_id a, msg_timestamp a)
  = (msg_conversation_id b, msg_timestamp b).
Proof.
  unfold message_same_key. rewrite andb_true_iff, !Z.eqb_eq.
  split; [intros [-> ->]; reflexivity | intros [= -> ->]; now split].
Qed.

Section MadeStores.

Variable token : Z -> Z.

Lemma step_keeps_keys_unique (st : Store) (call : Call) :
  keys_unique st -> keys_unique (step token st call).
Proof.
  intros (Hm & Hc & Hl). destruct call as [now a b | now cid s r c];
    cbn [step].
  - destruct (create_or_get_unchanged_or_new token st now a b) as [E | Hnone];
      [rewrite E; now repeat split |].
    rewrite (create_or_get_new token st now a b Hnone). cbn [snd].
    repeat split; cbn [messages conversations last_message_cache].
    + exact Hm.
    + apply NoDup_map_upsert; [| exact Hc].
      intros x y. unfold conversation_same_key. apply Z.eqb_eq.
    + apply NoDup_map_upsert; [| exact Hl].
      intros x y. unfold cache_same_key. apply Z.eqb_eq.
  - repeat split.
    + rewrite create_message_messages.
      apply NoDup_map_upsert; [apply message_same_key_spec | exact Hm].
    + exact Hc.
    + rewrite create_message_cache.
      apply NoDup_map_upsert; [| exact Hl].
      intros x y. unfold cache_same_key. apply Z.eqb_eq.
Qed.

Lemma step_keeps_timestamps_set (st : Store) (call : Call) :
  timestamps_set st -> timestamps_set (step token st call).
Proof.
  intros Hts row Hrow. destruct call as [now a b | now cid s r c];
    cbn [step] in Hrow.
  - destruct (create_or_get_unchanged_or_new token st now a b) as [E | Hnone];
      [rewrite E in Hrow; now apply Hts |].
    rewrite (create_or_get_new token st now a b Hnone) in Hrow.
    cbn [snd last_message_cache] in Hrow. apply In_upsert in Hrow.
    destruct Hrow as [-> | [Hrow _]]; [discriminate | now apply Hts].
  - rewrite create_message_cache in Hrow. apply In_upsert in Hrow.
    destruct Hrow as [-> | [Hrow _]]; [discriminate | now apply Hts].
Qed.

(** The calls keep the tables well formed: from a store in which no two rows
    of a table share a primary key and every cache row has a last timestamp,
    every history of [create_or_get_conversation] and [create_message] calls
    leads to such a store. *)
Theorem calls_keep_store_well_formed (calls : list Call) :
  forall st : Store,
    keys_unique st -> timestamps_set st ->
    keys_unique (run token st calls) /\ timestamps_set (run token st calls).
Proof.
  induction calls as [| call calls IH]; intros st Hk Hts; [now split |].
  cbn [run fold_left]. apply IH.
  - now apply step_keeps_keys_unique.
  - now apply step_keeps_timestamps_set.
Qed.

Lemma run_keeps_timestamps_set (calls : list Call) (st : Store) :
  timestamps_set st -> timestamps_set (run token st calls).
Proof.
  revert st. induction calls as [| call calls IH]; intros st Hts;
    [assumption |].
  cbn [run fold_left]. apply IH. now apply step_keeps_timestamps_set.
Qed.

(** [get_user_conversations] raises nothing on a store made by the calls:
    after every history on the empty store it returns a list and a total, for
    every user, page and limit. *)
Theorem user_conversations_never_raises (calls : list Call)
    (user_id page limit : Z) :
  exists items total,
    get_user_conversations (run token empty_store calls) user_id page limit
    = Ok (items, total).
Proof.
  assert (Hts : timestamps_set (run token empty_store calls)).
  { apply run_keeps_timestamps_set. intros row []. }
  unfold get_user_conversations.
  rewrite sort_by_last_timestamp_ok.
  - cbn. eauto.
  - intros row Hrow. apply Hts.
    unfold select_cache_by_receiver, select_cache_by_sender in Hrow.
    apply in_app_iff in Hrow. destruct Hrow as [Hrow | Hrow];
      now apply filter_In in Hrow.
Qed.

(** From a store with at most one conversation for each pair of users, a
    history in which every [create_message] goes to the conversation of its
    sender and receiver leads to a store with at most one conversation for
    each pair. *)
Theorem one_conversation_per_pair_along_history (calls : list Call) :
  forall st : Store,
    one_conversation_per_pair st -> well_addressed token st calls ->
    one_conversation_per_pair (run token st calls).
Proof.
  induction calls as [| call calls IH]; intros st Hinv Hwell; [assumption |].
  cbn [run fold_left]. destruct Hwell as [Hcall Hrest].
  apply IH; [| exact Hrest].
  destruct call as [now a b | now cid s r c]; cbn [step].
  - now apply one_conversation_per_pair_create_or_get.
  - now apply one_conversation_per_pair_create_message.
Qed.

End MadeStores.

Lemma calls_keep_store_well_formed_witness :
  keys_unique Example.three_messages
  /\ timestamps_set Example.three_messages.
Proof.
  apply (calls_keep_store_well_formed Example.by_key
           [CreateOrGet 10000 1 2; CreateMessage 20000 1 1 2 "a"%string;
            CreateMessage 30000 1 2 1 "b"%string;
            CreateMessage 40000 1 1 2 "c"%string] empty_store).
  - repeat split; constructor.
  - intros row [].
Defined.

Lemma one_conversation_per_pair_along_history_witness :
  one_conversation_per_pair Example.second_contact.
Proof.
  apply (one_conversation_per_pair_along_history Example.by_key
           [CreateOrGet 10000 1 2; CreateMessage 20000 1 1 2 "hi"%string;
            CreateOrGet 30000 1 3] empty_store).
  - apply one_conversation_per_pair_empty.
  - cbn. repeat split.
    intros row [<- | []] _. reflexivity.
Defined.

(** ** The snapshot of a created or found conversation *)

Lemma NoDup_map_eq {A : Type} (k : A -> Z) (l : list A) (a b : A) :
  NoDup (map k l) -> In a l -> In b l -> k a = k b -> a = b.
Proof.
  induction l as [| x l IH]; intros Hnd Ha Hb Hk; [destruct Ha |].
  cbn [map] in Hnd. apply NoDup_cons_iff in Hnd. destruct Hnd as [Hx Hnd].
  destruct Ha as [-> | Ha], Hb as [-> | Hb].
  - reflexivity.
  - exfalso. apply Hx. rewrite Hk. now apply in_map.
  - exfalso. apply Hx. rewrite <- Hk. now apply in_map.
  - now apply IH.
Qed.

Lemma get_conversation_some (st : Store) (cid : Z) (d : ConversationDetail) :
  get_conversation st cid = Some d ->
  exists row, In row (last_message_cache st)
              /\ lmc_conversation_id row = cid
              /\ d = conversation_detail row.
Proof.
  unfold get_conversation, select_cache.
  destruct (filter _ (last_message_cache st)) as [| r0 rest] eqn:E;
    [discriminate |].
  intros [= <-]. exists r0.
  assert (H : In r0 (r0 :: rest)) by now left.
  rewrite <- E in H. apply filter_In in H. destruct H as [Hin Hc].
  apply Z.eqb_eq in Hc. now repeat split.
Qed.

Section Snapshots.

Variable token : Z -> Z.

Lemma get_conversation_upsert (st : Store) (row : CacheRow) :
  get_conversation
    (mkStore (messages st) (conversations st)
       (Table.upsert cache_same_key (cache_before token) row
          (last_message_cache st)))
    (lmc_conversation_id row)
  = Some (conversation_detail row).
Proof.
  unfold get_conversation, select_cache. cbn [last_message_cache].
  now rewrite (select_cache_upsert token row st).
Qed.

(** [create_or_get_conversation] never returns [None], and
    [get_conversation] then finds the conversation under the id returned.
    When the conversation was found, it returns the very snapshot the call
    returned.  When the conversation was created, it returns that snapshot
    with the creation time cut to the millisecond: the call hands back the
    time it stamped, the store keeps the milliseconds. *)
Theorem create_or_get_conversation_then_get (st : Store) (now : datetime)
    (x y : Z) :
  let result := create_or_get_conversation token st now x y in
  exists d d',
    fst result = Some d
    /\ get_conversation (snd result) (cd_conversation_id d) = Some d'
    /\ cd_conversation_id d' = cd_conversation_id d
    /\ cd_sender_id d' = cd_sender_id d
    /\ cd_receiver_id d' = cd_receiver_id d
    /\ cd_last_message_content d' = cd_last_message_content d
    /\ ((exists row, In row (last_message_cache st)
                     /\ between x y row = true) ->
        d' = d)
    /\ ((forall row, In row (last_message_cache st) ->
                     between x y row = false) ->
        d = mkConversationDetail (get_new_conversation_id st) x y
              (Some now) None
        /\ d' = mkConversationDetail (get_new_conversation_id st) x y
                  (Some (cql_timestamp now)) None).
Proof.
  intros result. subst result.
  destruct (pair_rows_decide st x y) as [[row [Hrow Hb]] | Hnone].
  - assert (Hfound : exists r0, In r0 (last_message_cache st)
                                /\ create_or_get_conversation token st now x y
                                   = (get_conversation st
                                        (lmc_conversation_id r0), st)).
    { unfold create_or_get_conversation.
      destruct (select_cache_by_pair st x y) as [| r1 rest1] eqn:E1.
      - destruct (select_cache_by_pair st y x) as [| r2 rest2] eqn:E2.
        + exfalso. unfold between in Hb. apply orb_true_iff in Hb.
          destruct Hb as [Hp | Hp].
          * assert (H : In row (select_cache_by_pair st x y))
              by (apply filter_In; now split).
            rewrite E1 in H. destruct H.
          * assert (H : In row (select_cache_by_pair st y x))
              by (apply filter_In; now split).
            rewrite E2 in H. destruct H.
        + exists r2. split; [| reflexivity].
          assert (H : In r2 (select_cache_by_pair st y x))
            by (rewrite E2; now left).
          now apply select_cache_by_pair_between in H.
      - exists r1. split; [| reflexivity].
        assert (H : In r1 (select_cache_by_pair st x y))
          by (rewrite E1; now left).
        now apply select_cache_by_pair_between in H. }
    destruct Hfound as [r0 [Hin E]]. rewrite E. cbn [fst snd].
    destruct (get_conversation_of_row st r0 Hin) as [d [Hd Hid]].
    exists d, d. rewrite Hid, Hd.
    split; [reflexivity |]. split; [reflexivity |].
    split; [reflexivity |]. split; [reflexivity |].
    split; [reflexivity |]. split; [reflexivity |].
    split; [reflexivity |].
    intros Hnone. rewrite (Hnone row Hrow) in Hb. discriminate.
  - rewrite (create_or_get_new token st now x y Hnone). cbn [fst snd].
    eexists. eexists. split; [reflexivity |]. cbn [cd_conversation_id].
    split.
    { exact (get_conversation_upsert st
               (mkCacheRow (get_new_conversation_id st) x y
                  (Some (cql_timestamp now)) None)). }
    split; [reflexivity |]. split; [reflexivity |].
    split; [reflexivity |]. split; [reflexivity |].
    split; [| now split].
    intros [row [Hrow Hb]]. rewrite (Hnone row Hrow) in Hb. discriminate.
Qed.

(** When no two cache rows share a conversation id, the snapshot
    [create_or_get_conversation] returns names the two users of the call as
    its sender and receiver, in one order or the other. *)
Theorem create_or_get_conversation_is_of_the_pair (st : Store)
    (now : datetime) (x y : Z) (d : ConversationDetail) :
  NoDup (map lmc_conversation_id (last_message_cache st)) ->
  fst (create_or_get_conversation token st now x y) = Some d ->
  (cd_sender_id d = x /\ cd_receiver_id d = y)
  \/ (cd_sender_id d = y /\ cd_receiver_id d = x).
Proof.
  intros Hkeys. unfold create_or_get_conversation.
  assert (Hfound : forall a b r0 rest,
             select_cache_by_pair st a b = r0 :: rest ->
             get_conversation st (lmc_conversation_id r0) = Some d ->
             cd_sender_id d = a /\ cd_receiver_id d = b).
  { intros a b r0 rest E Hd.
    assert (H : In r0 (select_cache_by_pair st a b)) by (rewrite E; now left).
    unfold select_cache_by_pair in H. apply filter_In in H.
    destruct H as [Hin Hp]. apply andb_true_iff in Hp.
    rewrite !Z.eqb_eq in Hp.
    apply get_conversation_some in Hd. destruct Hd as [row (Hrow & Hc & ->)].
    rewrite (NoDup_map_eq lmc_conversation_id _ row r0 Hkeys Hrow Hin Hc).
    exact Hp. }
  destruct (select_cache_by_pair st x y) as [| r1 rest1] eqn:E1.
  - destruct (select_cache_by_pair st y x) as [| r2 rest2] eqn:E2.
    + cbn [fst]. intros [= <-]. left. now split.
    + cbn [fst]. intros Hd. right. now apply (Hfound y x r2 rest2).
  - cbn [fst]. intros Hd. left. now apply (Hfound x y r1 rest1).
Qed.

End Snapshots.

Lemma create_or_get_conversation_is_of_the_pair_witness :
  (cd_sender_id (mkConversationDetail 2 3 4 (Some 20000) None) = 4
   /\ cd_receiver_id (mkConversationDetail 2 3 4 (Some 20000) None) = 3)
  \/ (cd_sender_id (mkConversationDetail 2 3 4 (Some 20000) None) = 3
      /\ cd_receiver_id (mkConversationDetail 2 3 4 (Some 20000) None) = 4).
Proof.
  apply (create_or_get_conversation_is_of_the_pair Example.by_key
           Example.two_conversations 50000 4 3).
  - vm_compute. repeat constructor; cbn; intuition discriminate.
  - reflexivity.
Defined.

(** ** Listings after a write *)

Lemma sort_desc_head {A : Type} (key : A -> Z) (x : A) (l : list A) :
  In x l ->
  (forall y, In y l -> y = x \/ key y < key x) ->
  hd_error (PyList.sort_desc key l) = Some x.
Proof.
  intros Hx Hmax.
  pose proof (sort_desc_sorted key l) as Hs.
  apply Sorted_StronglySorted in Hs; [| intros a b c; lia].
  assert (Hin : forall y, In y (PyList.sort_desc key l) <-> In y l)
    by (intros y; apply In_sort_desc).
  destruct (PyList.sort_desc key l) as [| h t].
  - now apply Hin in Hx.
  - cbn. f_equal.
    destruct (Hmax h (proj1 (Hin h) (or_introl eq_refl))) as [-> | Hlt];
      [reflexivity |].
    apply Hin in Hx. destruct Hx as [-> | Hx]; [reflexivity |].
    inversion Hs as [| ? ? _ Hall]; subst.
    rewrite Forall_forall in Hall. specialize (Hall x Hx). lia.
Qed.

Section Listings.

Variable token : Z -> Z.

(** A message whose timestamp, cut to the millisecond, is after every last
    timestamp of the cache puts its conversation first in the listing of its
    sender and in the listing of its receiver: the first item of page 1 holds
    the message as last message and the cut timestamp as last timestamp, for
    every limit of at least 1. *)
Theorem new_message_tops_the_listing (st : Store) (now : datetime)
    (cid s r : Z) (c : string) (user_id limit : Z) :
  (forall row, In row (last_message_cache st) ->
               exists t, lmc_last_timestamp row = Some t
                         /\ t < cql_timestamp now) ->
  user_id = s \/ user_id = r ->
  1 <= limit ->
  exists items total,
    get_user_conversations (snd (create_message token st now cid s r c))
      user_id 1 limit = Ok (items, total)
    /\ hd_error items
       = Some (mkConversationItem cid s r (Some (cql_timestamp now)) (Some c)).
Proof.
  intros Hold Huser Hlimit.
  set (st' := snd (create_message token st now cid s r c)).
  set (new := mkCacheRow cid s r (Some (cql_timestamp now)) (Some c)).
  set (rows := select_cache_by_receiver st' user_id
               ++ select_cache_by_sender st' user_id).
  assert (Hrows : forall row, In row rows ->
                              row = new
                              \/ timestamp_key row < cql_timestamp now).
  { intros row Hrow. subst rows.
    unfold select_cache_by_receiver, select_cache_by_sender in Hrow.
    assert (Hin : In row (last_message_cache st')).
    { apply in_app_iff in Hrow. destruct Hrow as [Hrow | Hrow];
        now apply filter_In in Hrow. }
    subst st'. rewrite create_message_cache in Hin.
    apply In_upsert in Hin. destruct Hin as [-> | [Hin _]]; [now left |].
    right. destruct (Hold row Hin) as [t [Ht Hlt]].
    unfold timestamp_key. now rewrite Ht. }
  assert (Hnew : In new rows).
  { assert (Hc : In new (last_message_cache st')).
    { subst st'. rewrite create_message_cache. apply In_upsert. now left. }
    subst rows. unfold select_cache_by_receiver, select_cache_by_sender.
    apply in_app_iff. destruct Huser as [-> | ->].
    - right. apply filter_In. split; [exact Hc | apply Z.eqb_refl].
    - left. apply filter_In. split; [exact Hc | apply Z.eqb_refl]. }
  unfold get_user_conversations. fold rows.
  rewrite sort_by_last_timestamp_ok.
  - cbn [py_bind]. eexists. eexists. split; [reflexivity |].
    change ((1 - 1) * limit) with 0. rewrite slice_window by lia.
    cbn [Z.to_nat skipn].
    pose proof (sort_desc_head timestamp_key new rows Hnew Hrows) as Hhd.
    destruct (PyList.sort_desc timestamp_key rows) as [| h t];
      [discriminate |].
    cbn in Hhd. injection Hhd as ->.
    destruct (Z.to_nat limit) eqn:E; [lia | reflexivity].
  - intros row Hrow. destruct (Hrows row Hrow) as [-> | Hlt];
      [discriminate |].
    subst rows. unfold select_cache_by_receiver, select_cache_by_sender in Hrow.
    assert (Hin : In row (last_message_cache st')).
    { apply in_app_iff in Hrow. destruct Hrow as [Hrow | Hrow];
        now apply filter_In in Hrow. }
    subst st'. rewrite create_message_cache in Hin.
    apply In_upsert in Hin. destruct Hin as [-> | [Hin _]]; [discriminate |].
    destruct (Hold row Hin) as [t [Ht _]]. now rewrite Ht.
Qed.

(** A conversation of a user with themselves is listed twice: when no cache
    row names the user, [create_or_get_conversation] with that user in both
    places makes a listing of two items for the one conversation, each with
    the creation time cut to the millisecond, with a total of 2. *)
Theorem self_conversation_is_listed_twice (st : Store) (now : datetime)
    (user_id limit : Z) :
  (forall row, In row (last_message_cache st) ->
               lmc_sender_id row <> user_id
               /\ lmc_receiver_id row <> user_id) ->
  2 <= limit ->
  let item := mkConversationItem (get_new_conversation_id st) user_id user_id
                (Some (cql_timestamp now)) None in
  get_user_conversations
    (snd (create_or_get_conversation token st now user_id user_id))
    user_id 1 limit
  = Ok ([item; item], 2).
Proof.
  intros Hnone Hlimit item.
  rewrite (create_or_get_new token st now user_id user_id).
  - cbn [snd]. unfold get_user_conversations, select_cache_by_receiver,
      select_cache_by_sender. cbn [last_message_cache]. unfold Table.upsert.
    rewrite !filter_place_only.
    + cbn [app py_bind sort_by_last_timestamp length Nat.leb existsb
             lmc_last_timestamp andb orb].
      cbn [PyList.sort_desc PyList.insert_desc]. rewrite Z.leb_refl.
      change ((1 - 1) * limit) with 0. rewrite slice_window by lia.
      cbn [Z.to_nat skipn]. rewrite firstn_all2 by (cbn [length]; lia).
      reflexivity.
    + cbn. apply Z.eqb_refl.
    + apply filter_none. intros row Hrow. apply filter_In in Hrow.
      apply Z.eqb_neq. now apply Hnone.
    + cbn. apply Z.eqb_refl.
    + apply filter_none. intros row Hrow. apply filter_In in Hrow.
      apply Z.eqb_neq. now apply Hnone.
  - intros row Hrow. unfold between.
    destruct (Hnone row Hrow) as [Hs _].
    apply Z.eqb_neq in Hs. now rewrite Hs.
Qed.

End Listings.

Lemma new_message_tops_the_listing_witness :
  exists items total,
    get_user_conversations
      (snd (create_message Example.by_key Example.second_contact 40000 1 2 1
              "yo"%string)) 2 1 20 = Ok (items, total)
    /\ hd_error items
       = Some (mkConversationItem 1 2 1 (Some 40000) (Some "yo"%string)).
Proof.
  apply (new_message_tops_the_listing Example.by_key Example.second_contact
           40000 1 2 1 "yo"%string 2 20).
  - intros row Hrow. vm_compute in Hrow.
    destruct Hrow as [<- | [<- | []]]; eexists;
      (split; [reflexivity | vm_compute; reflexivity]).
  - now left.
  - lia.
Defined.

Lemma self_conversation_is_listed_twice_witness :
  get_user_conversations
    (snd (create_or_get_conversation Example.by_key Example.two_conversations
            50000 7 7)) 7 1 20
  = Ok ([mkConversationItem 2 7 7 (Some 50000) None;
         mkConversationItem 2 7 7 (Some 50000) None], 2).
Proof.
  apply (self_conversation_is_listed_twice Example.by_key
           Example.two_conversations 50000 7 20).
  - intros row Hrow. vm_compute in Hrow.
    destruct Hrow as [<- | [<- | []]]; cbn; split; discriminate.
  - lia.
Defined.

Lemma get_conversation_lookup_witness :
  get_conversation Example.two_conversations 5 = None
  /\ cd_conversation_id (mkConversationDetail 2 3 4 (Some 20000) None) = 2.
Proof.
  destruct (get_conversation_lookup Example.two_conversations 5) as [[_ H] _].
  destruct (get_conversation_lookup Example.two_conversations 2) as [_ H2].
  split.
  - apply H. intros row Hrow. vm_compute in Hrow.
    destruct Hrow as [<- | [<- | []]]; discriminate.
  - apply (H2 (mkConversationDetail 2 3 4 (Some 20000) None)). reflexivity.
Defined.

Lemma get_conversation_after_create_message_witness :
  get_conversation
    (snd (create_message Example.by_key Example.two_conversations 30000 1 1 2
            "hi"%string)) 1
  = Some (mkConversationDetail 1 1 2 (Some 30000) (Some "hi"%string)).
Proof.
  destruct (get_conversation_after_create_message Example.by_key
              Example.two_conversations 30000 1 1 2 "hi"%string)
    as (_ & _ & H & _).
  apply H. reflexivity.
Defined.

Lemma create_or_get_conversation_then_get_witness :
  exists d d',
    fst (create_or_get_conversation Example.by_key Example.two_conversations
           50234 7 9) = Some d
    /\ get_conversation
         (snd (create_or_get_conversation Example.by_key
                 Example.two_conversations 50234 7 9))
         (cd_conversation_id d) = Some d'
    /\ d = mkConversationDetail 2 7 9 (Some 50234) None
    /\ d' = mkConversationDetail 2 7 9 (Some 50000) None.
Proof.
  destruct (create_or_get_conversation_then_get Example.by_key
              Example.two_conversations 50234 7 9)
    as (d & d' & Hd & Hd' & _ & _ & _ & _ & _ & Hcreated).
  exists d, d'. split; [exact Hd |]. split; [exact Hd' |].
  apply Hcreated. intros row Hrow. vm_compute in Hrow.
  destruct Hrow as [<- | [<- | []]]; reflexivity.
Defined.
